(** * Document store of the RAG pipeline: [scripts/chromadb_setup.py]

    A shallow embedding of the document-store module: the deterministic
    stub embedding, the embedding adapter, provider resolution, the
    vector-store manager (open, reinitialise, add with one retry) and the
    JSON fallback store with its token-overlap search.

    Modelling conventions.
    - A Python [str] is a [string]; a character is a code point below 256
      (the Latin-1 range), on which [str.lower] and [str.isspace] are
      written out exactly as Python defines them.
    - A Python [float] is a primitive binary64 [float]; the arithmetic of
      [_fake_embed] is IEEE division, as in the source.
    - Exceptions are values: a computation returns [Ret v] or [Raise e].
    - The outside world (the Chroma library, the file system) is an
      oracle: whether a call fails may depend on every call made so far.
      Each call is appended to the history of the world.
    - The fallback file is abstracted to what [json.loads] makes of it:
      absent, unparsable, or holding a JSON value; [json.dumps] followed
      by [write_text] leaves the file holding the dumped value.
    - Logging calls are left out. *)

From Stdlib Require Import ZArith Floats Uint63 Ascii String List Lia.
From stdpp Require Import base option list gmap strings pretty sorting.

Import ListNotations.
Local Open Scope list_scope.

(** ** Python strings *)

Module PyStr.

Definition ord (c : ascii) : Z := Z.of_nat (nat_of_ascii c).

(** [str.lower] on one code point of the Latin-1 range: A-Z and the
    accented capitals U+00C0..U+00DE (but the sign U+00D7) move up by 32. *)
Definition lower_char (c : ascii) : ascii :=
  let n := nat_of_ascii c in
  if ((65 <=? n) && (n <=? 90))%nat then ascii_of_nat (n + 32)
  else if ((192 <=? n) && (n <=? 222) && negb (n =? 215))%nat then ascii_of_nat (n + 32)
  else c.

Fixpoint lower (s : string) : string :=
  match s with
  | EmptyString => EmptyString
  | String c r => String (lower_char c) (lower r)
  end.

(** [str.isspace] on one code point of the Latin-1 range. *)
Definition isspace (c : ascii) : bool :=
  let n := nat_of_ascii c in
  (((9 <=? n) && (n <=? 13)) || ((28 <=? n) && (n <=? 32))
   || (n =? 133) || (n =? 160))%nat.

(** [s.split()]: maximal runs of non-space characters, in order. [tok]
    is the run read so far. *)
Fixpoint split_go (tok : string) (s : string) : list string :=
  match s with
  | EmptyString => match tok with EmptyString => [] | _ => [tok] end
  | String c r =>
      if isspace c
      then match tok with
           | EmptyString => split_go EmptyString r
           | _ => tok :: split_go EmptyString r
           end
      else split_go (tok +:+ String c EmptyString) r
  end.

Definition split (s : string) : list string := split_go EmptyString s.

(** [pat in s] *)
Fixpoint contains (pat s : string) : bool :=
  if String.prefix pat s then true
  else match s with
       | EmptyString => false
       | String _ r => contains pat r
       end.

(** [s[:n]] for [n >= 0] *)
Fixpoint take (n : nat) (s : string) : string :=
  match n, s with
  | O, _ => EmptyString
  | S _, EmptyString => EmptyString
  | S n', String c r => String c (take n' r)
  end.

Fixpoint replicate (n : nat) (c : ascii) : string :=
  match n with
  | O => EmptyString
  | S n' => String c (replicate n' c)
  end.

(** [s.ljust(n, c)] *)
Definition ljust (n : nat) (c : ascii) (s : string) : string :=
  s +:+ replicate (n - String.length s) c.

Definition chars (s : string) : list ascii := list_ascii_of_string s.

(** [str(n)] for a natural number *)
Definition of_nat (n : nat) : string := pretty n.

End PyStr.

(** ** Exceptions and results *)

Inductive exn_class :=
| TypeError | IndexError | AttributeError | JSONDecodeError | OSError | OtherError.

Record exn := Exn { exn_cls : exn_class; exn_msg : string }.

Inductive result (A : Type) :=
| Ret (a : A)
| Raise (e : exn).
Arguments Ret {A} a.
Arguments Raise {A} e.

Definition result_bind {A B} (r : result A) (k : A -> result B) : result B :=
  match r with
  | Ret a => k a
  | Raise e => Raise e
  end.

(** [l[i]] for [i >= 0]: IndexError out of range. *)
Definition py_index {A} (l : list A) (i : nat) : result A :=
  match l !! i with
  | Some a => Ret a
  | None => Raise (Exn IndexError "list index out of range")
  end.

(** [[f(x) for x in l]], stopping at the first exception. *)
Fixpoint result_map {A B} (f : A -> result B) (l : list A) : result (list B) :=
  match l with
  | [] => Ret []
  | x :: r =>
      result_bind (f x) (fun y =>
      result_bind (result_map f r) (fun ys => Ret (y :: ys)))
  end.

(** ** Embeddings *)

Definition vector := list float.
Definition embedding_function := list string -> result (list vector).

(** [float(ord(c) % 97) / 97.0] *)
Definition stub_component (c : ascii) : float :=
  (PrimFloat.of_uint63 (Uint63.of_Z (PyStr.ord c mod 97)) / 97)%float.

(** The inner [vec] of [_fake_embed]. A text is a [str] here, so [s or ""]
    is [s]. *)
Definition _fake_embed_vec (s : string) : vector :=
  let s := PyStr.take 256 s in
  map stub_component
      (PyStr.chars (PyStr.take 32 (PyStr.ljust 32 "000"%char s))).

Definition _fake_embed (texts : list string) : list vector :=
  map _fake_embed_vec texts.

(** ** The embedding adapter *)

Record _EmbeddingAdapter := Build_EmbeddingAdapter { _fn : embedding_function }.

Definition embed_documents (a : _EmbeddingAdapter) (texts : list string)
  : result (list vector) := _fn a texts.

Definition embed_query (a : _EmbeddingAdapter) (text : string) : result vector :=
  result_bind (_fn a [text]) (fun r => py_index r 0).

Definition embed (a : _EmbeddingAdapter) (texts : list string)
  : result (list vector) := _fn a texts.

(** ** JSON values, as [json.loads] yields them and [json.dumps] takes them *)

#[local] Set Warnings "-register-all".
Inductive json :=
| JNull
| JBool (b : bool)
| JInt (z : Z)
| JFloat (f : float)
| JStr (s : string)
| JArr (items : list json)
| JObj (fields : list (string * json)).

(** [d.get(key)] on the fields of a dict, which keeps insertion order. *)
Fixpoint dict_get (key : string) (fields : list (string * json)) : option json :=
  match fields with
  | [] => None
  | (k, v) :: r => if String.eqb k key then Some v else dict_get key r
  end.

Definition json_of_vector (v : vector) : json := JArr (map JFloat v).

(** What the fallback file holds, seen through [json.loads]. *)
Inductive file_content :=
| Unparsable
| Parsed (v : json).

(** ** The world: fallback file, persist directories, calls made so far *)

(** A call into the Chroma library or the file system. Opening the index
    reads the persist directory, so that call carries what the directory
    held at that moment ([None]: no such directory). *)
Inductive op :=
| OpChroma (persist_directory : string) (listing : option (list string))
| OpAddTexts (texts : list string) (metadatas : list json)
| OpPersist
| OpSimilaritySearch (query : string) (k : Z)
| OpRmtree (p : string)
| OpMkdir (p : string)
| OpReadText
| OpWriteText.

Record World := mkWorld {
  fallback_file : option file_content;
  dirs : gmap string (list string);
  history : list op
}.

(** The remote embedding client that tier 1 looks for. *)
Record GroqObject := {
  groq_embed_documents : option embedding_function;
  groq_embed : option (string -> result vector)
}.

Record GroqClass := {
  groq_new_with_key : string -> result GroqObject;
  groq_new : result GroqObject
}.

(** Everything the module finds around it: what could be imported, the
    environment variables, and how the outside answers each call. *)
Record Env := mkEnv {
  Chroma_imported : bool;
  _GroqEmbeddings : option GroqClass;
  _HuggingFaceEmbeddings : option (string -> result embedding_function);
  _SentenceTransformer : option (string -> result embedding_function);
  GROQ_API_KEY : option string;
  EMBEDDING_MODEL : option string;
  (** [fault h o]: the exception call [o] raises after the calls [h], if any *)
  fault : list op -> op -> option exn;
  (** what [similarity_search] returns when it does not raise *)
  similar : list op -> string -> Z -> list json
}.

(** ** State and exception monad *)

Definition M (A : Type) : Type := World -> result A * World.

Definition ret {A} (a : A) : M A := fun w => (Ret a, w).

Definition bind {A B} (m : M A) (k : A -> M B) : M B :=
  fun w => match m w with
           | (Ret a, w') => k a w'
           | (Raise e, w') => (Raise e, w')
           end.

Definition raise {A} (e : exn) : M A := fun w => (Raise e, w).

(** [try: m  except Exception as e: h e] *)
Definition try_except {A} (m : M A) (h : exn -> M A) : M A :=
  fun w => match m w with
           | (Ret a, w') => (Ret a, w')
           | (Raise e, w') => h e w'
           end.

Definition lift {A} (r : result A) : M A := fun w => (r, w).

Definition gets {A} (f : World -> A) : M A := fun w => (Ret (f w), w).

Definition modify (f : World -> World) : M unit := fun w => (Ret tt, f w).

Declare Scope py_scope.
Delimit Scope py_scope with py.
Notation "x <- m ;; k" := (bind m (fun x => k))
  (at level 100, m at next level, right associativity) : py_scope.
Notation "m ;; k" := (bind m (fun _ => k))
  (at level 100, right associativity) : py_scope.
Local Open Scope py_scope.

Section Store.

Context (env : Env).

(** One call to the outside: it is recorded, and fails if the oracle says so. *)
Definition call (o : op) : M unit :=
  fun w =>
    let w' := mkWorld (fallback_file w) (dirs w) (history w ++ [o]) in
    match fault env (history w) o with
    | None => (Ret tt, w')
    | Some e => (Raise e, w')
    end.

(** *** File system *)

Definition path_exists (p : string) : M bool :=
  gets (fun w => bool_decide (is_Some (dirs w !! p))).

(** [shutil.rmtree(p)]. The entry of [p] in [dirs] stands for the whole
    tree below [p]. A call that fails is recorded and leaves the entry as
    it was, although the real call may have removed part of the tree by
    then: the contents of a directory are stated below only after calls
    that succeeded. *)
Definition rmtree (p : string) : M unit :=
  call (OpRmtree p) ;;
  modify (fun w => mkWorld (fallback_file w) (delete p (dirs w)) (history w)).

(** [p.mkdir(parents=True, exist_ok=True)]. Parent directories are not
    part of the model: [dirs] holds the persist directories only. *)
Definition mkdir (p : string) : M unit :=
  call (OpMkdir p) ;;
  modify (fun w =>
    match dirs w !! p with
    | Some _ => w
    | None => mkWorld (fallback_file w) (<[p := []]> (dirs w)) (history w)
    end).

Definition fallback_exists : M bool :=
  gets (fun w => bool_decide (is_Some (fallback_file w))).

Definition read_text : M file_content :=
  call OpReadText ;;
  c <- gets fallback_file ;;
  match c with
  | Some c => ret c
  | None => raise (Exn OSError "No such file or directory")
  end.

Definition json_loads (c : file_content) : result json :=
  match c with
  | Parsed v => Ret v
  | Unparsable => Raise (Exn JSONDecodeError "Expecting value")
  end.

(** [FALLBACK_STORE.write_text(json.dumps(v, indent=2))] *)
Definition write_text (v : json) : M unit :=
  call OpWriteText ;;
  modify (fun w => mkWorld (Some (Parsed v)) (dirs w) (history w)).

(** *** Provider resolution *)

Definition get_embedding_function : embedding_function :=
  let model_name := default "all-MiniLM-L6-v2" (EMBEDDING_MODEL env) in
  let tier1 : option embedding_function :=
    match _GroqEmbeddings env, GROQ_API_KEY env with
    | Some cls, Some ((String _ _) as groq_key) =>
        let emb :=
          match groq_new_with_key cls groq_key with
          | Raise (Exn TypeError _) => groq_new cls
          | r => r
          end in
        match emb with
        | Ret emb =>
            match groq_embed_documents emb, groq_embed emb with
            | Some f, _ => Some (fun texts => f texts)
            | None, Some g => Some (fun texts => result_map g texts)
            | None, None => None
            end
        | Raise _ => None
        end
    | _, _ => None
    end in
  let tier2 : option embedding_function :=
    match _HuggingFaceEmbeddings env with
    | Some cls =>
        match cls model_name with
        | Ret hfe => Some (fun texts => hfe texts)
        | Raise _ => None
        end
    | None => None
    end in
  let tier3 : option embedding_function :=
    match _SentenceTransformer env with
    | Some cls =>
        match cls model_name with
        | Ret st => Some (fun texts => st texts)
        | Raise _ => None
        end
    | None => None
    end in
  match tier1, tier2, tier3 with
  | Some f, _, _ => f
  | None, Some f, _ => f
  | None, None, Some f => f
  | None, None, None => fun texts => Ret (_fake_embed texts)
  end.

(** *** Vector store manager *)

Record Db := mkDb { db_embedding : _EmbeddingAdapter; db_directory : string }.

(** [Chroma(collection_name="rag_docs", embedding_function=..., persist_directory=...)] *)
Definition Chroma (embedding_obj : _EmbeddingAdapter) (persist_directory : string) : M Db :=
  listing <- gets (fun w => dirs w !! persist_directory) ;;
  call (OpChroma persist_directory listing) ;;
  ret (mkDb embedding_obj persist_directory).

Definition add_texts (db : Db) (texts : list string) (metadatas : list json) : M unit :=
  call (OpAddTexts texts metadatas).

Definition persist (db : Db) : M unit := call OpPersist.

Definition similarity_search (db : Db) (query : string) (k : Z) : M (list json) :=
  h <- gets history ;;
  call (OpSimilaritySearch query k) ;;
  ret (similar env h query k).

Definition _reinit_chroma_dir (persist_directory : string) : M unit :=
  try_except
    (there <- path_exists persist_directory ;;
     (if there : bool then rmtree persist_directory else ret tt) ;;
     mkdir persist_directory)
    (fun _ => ret tt).

(** The test on the message of a failed open. *)
Definition open_mismatch (e : exn) : bool :=
  let msg := PyStr.lower (exn_msg e) in
  PyStr.contains "dimension" msg || PyStr.contains "embedding" msg
  || PyStr.contains "mismatch" msg.

(** The test on the message of a failed add. *)
Definition add_mismatch (e : exn) : bool :=
  let msg := PyStr.lower (exn_msg e) in
  PyStr.contains "dimension" msg || PyStr.contains "mismatch" msg
  || PyStr.contains "shape" msg.

Definition get_chroma_db (persist_directory : string)
  : M (option Db * embedding_function) :=
  let embedding_fn := get_embedding_function in
  let embedding_obj := Build_EmbeddingAdapter embedding_fn in
  if negb (Chroma_imported env) then ret (None, embedding_fn)
  else
    try_except
      (db <- Chroma embedding_obj persist_directory ;;
       ret (Some db, embedding_fn))
      (fun e =>
         if open_mismatch e then
           _reinit_chroma_dir persist_directory ;;
           try_except
             (db <- Chroma embedding_obj persist_directory ;;
              ret (Some db, embedding_fn))
             (fun e2 => ret (None, embedding_fn))
         else ret (None, embedding_fn)).

(** *** Fallback store *)

(** [metadatas[i] if metadatas and i < len(metadatas) else {}] *)
Definition metadata_at (metadatas : option (list json)) (i : nat) : json :=
  match metadatas with
  | Some ((_ :: _) as l) =>
      if (i <? length l)%nat then default (JObj []) (l !! i) else JObj []
  | _ => JObj []
  end.

(** [metadatas or [{} for _ in texts]] *)
Definition metadatas_or_empty (metadatas : option (list json)) (texts : list string)
  : list json :=
  match metadatas with
  | Some ((_ :: _) as l) => l
  | _ => map (fun _ => JObj []) texts
  end.

(** The loop [for i, t in enumerate(texts): items.append({...})], from
    index [i] on. Anything but a list has no [append]. *)
Fixpoint append_records (items : json) (i : nat) (texts : list string)
         (metadatas : option (list json)) (embs : list vector) : result json :=
  match texts with
  | [] => Ret items
  | t :: rest =>
      match items with
      | JArr l =>
          result_bind (py_index embs i) (fun e =>
            let record :=
              JObj [("id", JStr ("doc-" +:+ PyStr.of_nat (length l + 1)));
                    ("text", JStr t);
                    ("metadata", metadata_at metadatas i);
                    ("embedding", json_of_vector e)] in
            append_records (JArr (l ++ [record])) (S i) rest metadatas embs)
      | _ => Raise (Exn AttributeError "object has no attribute 'append'")
      end
  end.

(** Lines 210-226 of [add_documents_to_chroma]: the append to the
    fallback file. *)
Definition fallback_append (embedding_fn : embedding_function)
           (texts : list string) (metadatas : option (list json)) : M unit :=
  items <- (there <- fallback_exists ;;
            if there : bool
            then try_except (c <- read_text ;; lift (json_loads c))
                            (fun _ => ret (JArr []))
            else ret (JArr [])) ;;
  embs <- lift (embedding_fn texts) ;;
  items <- lift (append_records items 0 texts metadatas embs) ;;
  write_text items.

(** How a block of the function ends: with [return], or by running on. *)
Inductive flow := Returned | FallsThrough.

Definition add_documents_to_chroma (texts : list string)
           (metadatas : option (list json)) (persist_directory : string) : M unit :=
  opened <- get_chroma_db persist_directory ;;
  let '(db, embedding_fn) := opened in
  f <- match db with
       | Some db =>
           try_except
             (add_texts db texts (metadatas_or_empty metadatas texts) ;;
              try_except (persist db) (fun _ => ret tt) ;;
              ret Returned)
             (fun e =>
                if add_mismatch e then
                  _reinit_chroma_dir persist_directory ;;
                  reopened <- get_chroma_db persist_directory ;;
                  let db := fst reopened in
                  try_except
                    match db with
                    | Some db =>
                        add_texts db texts (metadatas_or_empty metadatas texts) ;;
                        try_except (persist db) (fun _ => ret tt) ;;
                        ret Returned
                    | None => ret FallsThrough
                    end
                    (fun e2 => ret FallsThrough)
                else ret FallsThrough)
       | None => ret FallsThrough
       end ;;
  match f with
  | Returned => ret tt
  | FallsThrough => fallback_append embedding_fn texts metadatas
  end.

(** [for d in data]: what iterating over a JSON value yields. *)
Definition py_iter (data : json) : result (list json) :=
  match data with
  | JArr l => Ret l
  | JObj fields => Ret (map (fun kv => JStr (fst kv)) fields)
  | JStr s => Ret (map (fun c => JStr (String c EmptyString)) (PyStr.chars s))
  | _ => Raise (Exn TypeError "object is not iterable")
  end.

(** [set(s.lower().split())] *)
Definition tokens (s : string) : gset string :=
  list_to_set (PyStr.split (PyStr.lower s)).

(** [len(qtokens & set(d.get("text", "").lower().split()))] *)
Definition score (qtokens : gset string) (d : json) : result nat :=
  match d with
  | JObj fields =>
      match default (JStr "") (dict_get "text" fields) with
      | JStr text => Ret (size (qtokens ∩ tokens text))
      | _ => Raise (Exn AttributeError "object has no attribute 'lower'")
      end
  | _ => Raise (Exn AttributeError "object has no attribute 'get'")
  end.

(** The loop that fills [scored]. *)
Definition score_all (qtokens : gset string) (data : list json)
  : result (list (nat * json)) :=
  result_map (fun d => result_bind (score qtokens d) (fun s => Ret (s, d))) data.

(** [scored.sort(key=lambda x: x[0], reverse=True)]: the sort is stable,
    and with [reverse=True] equal keys still keep their order. [x] goes
    in front of the first entry whose key is not above its own. *)
Fixpoint insert_desc {A} (x : nat * A) (l : list (nat * A)) : list (nat * A) :=
  match l with
  | [] => [x]
  | y :: r => if (fst x <? fst y)%nat then y :: insert_desc x r else x :: y :: r
  end.

Definition sort_desc {A} (l : list (nat * A)) : list (nat * A) :=
  foldr insert_desc [] l.

(** [l[:k]] for any integer [k] *)
Definition py_slice_to {A} (k : Z) (l : list A) : list A :=
  if (0 <=? k)%Z then take (Z.to_nat k) l
  else take (Z.to_nat (Z.of_nat (length l) + k)) l.

(** Lines 236-246 of [search_chroma]: the search of the fallback file. *)
Definition fallback_search (query : string) (k : Z) : M (list json) :=
  there <- fallback_exists ;;
  if negb there then ret []
  else
    c <- read_text ;;
    data <- lift (json_loads c) ;;
    let qtokens := tokens query in
    data <- lift (py_iter data) ;;
    scored <- lift (score_all qtokens data) ;;
    let scored := sort_desc scored in
    ret (map snd (py_slice_to k scored)).

Definition search_chroma (query : string) (k : Z) (persist_directory : string)
  : M (list json) :=
  opened <- get_chroma_db persist_directory ;;
  let db := fst opened in
  found <- match db with
           | Some db =>
               try_except (r <- similarity_search db query k ;; ret (Some r))
                          (fun e => ret None)
           | None => ret None
           end ;;
  match found with
  | Some r => ret r
  | None => fallback_search query k
  end.

End Store.

(** ** Vocabulary of the specification *)

(** [msg] contains [needle] when case is ignored: some stretch of [msg]
    lowers to [needle]. The needles used below are in lower case. *)
Definition ci_contains (needle msg : string) : Prop :=
  ∃ pre mid post, msg = pre +:+ mid +:+ post ∧ PyStr.lower mid = needle.

(** The pattern of §4.3 for a failed open. *)
Definition open_pattern (msg : string) : Prop :=
  ci_contains "dimension" msg ∨ ci_contains "embedding" msg
  ∨ ci_contains "mismatch" msg.

(** The pattern the add path tests for. *)
Definition add_pattern (msg : string) : Prop :=
  ci_contains "dimension" msg ∨ ci_contains "mismatch" msg
  ∨ ci_contains "shape" msg.

(** The input of the stub cut or padded with NUL to position [j]. *)
Definition window_char (s : string) (j : nat) : ascii :=
  nth j (PyStr.chars s) "000"%char.

(** Number of distinct lower-case, whitespace-separated words of [query]
    that also occur in [text]. *)
Definition token_overlap (query text : string) : nat :=
  length (remove_dups
            (filter (λ t, t ∈ PyStr.split (PyStr.lower text))
                    (PyStr.split (PyStr.lower query)))).

(** The text a stored record is ranked by: its ["text"] entry, or the
    empty string when it has none. *)
Definition record_text (d : json) : option string :=
  match d with
  | JObj fields =>
      match dict_get "text" fields with
      | None => Some ""
      | Some (JStr s) => Some s
      | Some _ => None
      end
  | _ => None
  end.

Definition record_overlap (query : string) (d : json) : nat :=
  token_overlap query (default "" (record_text d)).

(** The records of a well-formed fallback file ([None]: not an array). *)
Definition stored (c : option file_content) : option (list json) :=
  match c with
  | None => Some []
  | Some (Parsed (JArr l)) => Some l
  | Some _ => None
  end.

(** The record the fallback store writes for text [t] at index [i] of a
    batch appended to a file of [n] records. *)
Definition new_record (n i : nat) (t : string) (metadata : json) (e : vector) : json :=
  JObj [("id", JStr ("doc-" +:+ PyStr.of_nat (n + i + 1)));
        ("text", JStr t);
        ("metadata", metadata);
        ("embedding", json_of_vector e)].

(** [metadatas[i]] when there is one, the empty mapping otherwise. *)
Definition metadata_or_empty (metadatas : option (list json)) (i : nat) : json :=
  match metadatas with
  | Some l => default (JObj []) (l !! i)
  | None => JObj []
  end.

(** Classes of calls. *)
Definition is_open (o : op) : bool :=
  match o with OpChroma _ _ => true | _ => false end.
Definition is_add (o : op) : bool :=
  match o with OpAddTexts _ _ => true | _ => false end.
Definition is_reinit (o : op) : bool :=
  match o with OpRmtree _ | OpMkdir _ => true | _ => false end.
Definition is_file (o : op) : bool :=
  match o with OpReadText | OpWriteText => true | _ => false end.

(** The world after call [o] has been recorded. *)
Definition after_call (o : op) (w : World) : World :=
  mkWorld (fallback_file w) (dirs w) (history w ++ [o]).

(** The calls made on the way from world [w] to world [w']. *)
Definition new_calls (w w' : World) : list op :=
  drop (length (history w)) (history w').

(** Removing and creating directory [p] never fails. *)
Definition dir_reliable (env : Env) (p : string) : Prop :=
  ∀ h, fault env h (OpRmtree p) = None ∧ fault env h (OpMkdir p) = None.

(** Reading and writing the fallback file never fails. *)
Definition file_reliable (env : Env) : Prop :=
  ∀ h, fault env h OpReadText = None ∧ fault env h OpWriteText = None.

(** What the append path takes the fallback file to hold: the parsed
    value, or the empty list for an absent or unparsable file. *)
Definition loaded (c : option file_content) : json :=
  match c with
  | Some (Parsed v) => v
  | _ => JArr []
  end.

(** The records appended for [texts] to a file of [n] records. *)
Definition new_records (n : nat) (texts : list string)
           (metadatas : option (list json)) (embs : list vector) : list json :=
  imap (λ i t, new_record n i t (metadata_or_empty metadatas i)
                          (default [] (embs !! i)))
       texts.

(** The calls the fallback append makes on the fallback file. *)
Definition append_calls (c : option file_content) : list op :=
  match c with
  | Some _ => [OpReadText; OpWriteText]
  | None => [OpWriteText]
  end.

(** The call [db.add_texts(texts=texts, metadatas=metadatas or [...])]. *)
Definition add_call (texts : list string) (metadatas : option (list json)) : op :=
  OpAddTexts texts (metadatas_or_empty metadatas texts).

(** Number of add attempts among the calls [evs]. *)
Definition adds (evs : list op) : nat := length (List.filter is_add evs).

(** [m] makes only calls of class [P], whatever it returns. *)
Definition emits {A} (P : op → bool) (m : M A) : Prop :=
  ∀ w, ∃ evs, history (snd (m w)) = history w ++ evs
              ∧ Forall (λ o, P o = true) evs.

(** ** Scenarios *)

Module Scenario.

(** Nothing could be imported and no key is set: the stub embeds, and
    every file operation succeeds. *)
Definition offline : Env :=
  mkEnv false None None None None None (λ _ _, None) (λ _ _ _, []).

(** The index opens, but every add fails with message [msg]. *)
Definition add_fails (msg : string) : Env :=
  mkEnv true None None None None None
        (λ _ o, match o with
                | OpAddTexts _ _ => Some (Exn OtherError msg)
                | _ => None
                end)
        (λ _ _ _, []).

(** The first open fails with message [msg]; every later call succeeds. *)
Definition open_fails_once (msg : string) : Env :=
  mkEnv true None None None None None
        (λ h o, match o, h with
                | OpChroma _ _, [] => Some (Exn OtherError msg)
                | _, _ => None
                end)
        (λ _ _ _, []).

(** The first add fails with message [msg]; every later call succeeds. *)
Definition add_fails_once (msg : string) : Env :=
  mkEnv true None None None None None
        (λ h o, match o with
                | OpAddTexts _ _ =>
                    if existsb is_add h then None
                    else Some (Exn OtherError msg)
                | _ => None
                end)
        (λ _ _ _, []).

(** The index opens once and the add fails with message [msg]; after
    that no open succeeds. *)
Definition add_fails_store_lost (msg : string) : Env :=
  mkEnv true None None None None None
        (λ h o, match o, h with
                | OpAddTexts _ _, _ => Some (Exn OtherError msg)
                | OpChroma _ _, _ :: _ => Some (Exn OSError "No space left on device")
                | _, _ => None
                end)
        (λ _ _ _, []).

Definition chroma_db : string := "chroma_db".

(** No fallback file, no persist directory. *)
Definition fresh : World := mkWorld None ∅ [].

(** An index already on disk. *)
Definition indexed : World :=
  mkWorld None {[ chroma_db := ["chroma.sqlite3"] ]} [].

(** A fallback file that does not parse. *)
Definition corrupt : World := mkWorld (Some Unparsable) ∅ [].

Definition text_record (t : string) : json := JObj [("text", JStr t)].

(** A fallback file holding the two records of the search example. *)
Definition cat_dog : World :=
  mkWorld (Some (Parsed (JArr [text_record "the cat sat";
                               text_record "a dog ran"]))) ∅ [].

Definition source_x : json := JObj [("source", JStr "x")].

(** What the index says when the embedding no longer fits it. *)
Definition dimension_message : string :=
  "Embedding dimension 384 does not match collection dimensionality 32".

(** The stub as an embedding function. *)
Definition stub : embedding_function := λ texts, Ret (_fake_embed texts).

(** [indexed] after its index has been opened. *)
Definition opened : World :=
  after_call (OpChroma chroma_db (Some ["chroma.sqlite3"])) indexed.

End Scenario.

(** * The rest of the pipeline *)

(** ** Slices and joins *)

(** Where Python puts the bound [x] of a slice of a sequence of [len]
    items: negative bounds count from the end, and all are clipped. *)
Definition py_bound (len : nat) (x : Z) : nat :=
  if (x <? 0)%Z then Z.to_nat (Z.max 0 (x + Z.of_nat len))
  else Z.to_nat (Z.min x (Z.of_nat len)).

(** [l[lo:hi]] *)
Definition py_slice {A} (lo hi : Z) (l : list A) : list A :=
  take (py_bound (length l) hi - py_bound (length l) lo)
       (drop (py_bound (length l) lo) l).

(** [l[lo:]] *)
Definition py_slice_from {A} (lo : Z) (l : list A) : list A :=
  drop (py_bound (length l) lo) l.

(** [sep.join(l)] *)
Fixpoint str_join (sep : string) (l : list string) : string :=
  match l with
  | [] => EmptyString
  | [x] => x
  | x :: r => x +:+ sep +:+ str_join sep r
  end.

Definition newline : ascii := "010"%char.

(** ** [scripts/pdf_scraper.py]: words and chunks *)

(** [re.findall(r"\S+", text)]: the maximal runs of characters that are
    not whitespace. [\S] and [str.split] agree on what whitespace is, so
    these are the words [text.split()] gives. *)
Definition findall_nonspace (text : string) : list string := PyStr.split text.

Definition _first_n_words (text : string) (n : Z) : string :=
  let words := findall_nonspace text in
  str_join " " (py_slice_to n words).

Definition _last_n_words (text : string) (n : Z) : string :=
  let words := findall_nonspace text in
  str_join " " (py_slice_from (- n) words).

(** The [while] loop of [chunk_text], run for at most [fuel] rounds;
    [None] when the rounds do not suffice. *)
Fixpoint chunk_loop (fuel : nat) (words : list string) (chunk_size overlap : Z)
         (i : Z) (chunks : list string) : option (list string) :=
  if (i <? Z.of_nat (length words))%Z then
    match fuel with
    | O => None
    | S fuel' =>
        let chunk := py_slice i (i + chunk_size) words in
        chunk_loop fuel' words chunk_size overlap
                   (i + (chunk_size - overlap))
                   (chunks ++ [str_join " " chunk])
    end
  else Some chunks.

Definition chunk_text (fuel : nat) (text : string) (chunk_size overlap : Z)
  : option (list string) :=
  let words := findall_nonspace text in
  chunk_loop fuel words chunk_size overlap 0 [].

(** ** [scripts/llm_setup.py]: the offline model *)

(** [s.replace("\n", " ")] *)
Fixpoint replace_newlines (s : string) : string :=
  match s with
  | EmptyString => EmptyString
  | String c r =>
      String (if Ascii.eqb c newline then " "%char else c) (replace_newlines r)
  end.

Record _StubLLM := mk_StubLLM { stub_model : string; stub_temperature : float }.

(** [_StubLLM.__call__]. [format_float] is how an f-string prints a float. *)
Definition stub_call (format_float : float -> string) (self : _StubLLM)
           (prompt : string) : string :=
  let head := replace_newlines (PyStr.take 400 prompt) in
  "[LLM_STUB] model=" +:+ stub_model self
  +:+ " temp=" +:+ format_float (stub_temperature self)
  +:+ " | prompt_preview=" +:+ head.

(** ** [scripts/rag_pipeline.py]: normalising hits and answering *)

(** A search hit as Python sees it: an object of the vector-store
    library, whose attributes are the entries of [attrs], or a plain JSON
    value, as the fallback file holds them. *)
Inductive pydoc :=
| LibObject (attrs : json)
| Plain (value : json).

Definition erase (d : pydoc) : json :=
  match d with
  | LibObject j => j
  | Plain j => j
  end.

(** Truth value of a JSON value in Python. *)
Definition truthy (v : json) : bool :=
  match v with
  | JNull => false
  | JBool b => b
  | JInt z => negb (z =? 0)%Z
  | JFloat f => negb (PrimFloat.eqb f 0%float)
  | JStr s => negb (String.eqb s EmptyString)
  | JArr l => match l with [] => false | _ => true end
  | JObj f => match f with [] => false | _ => true end
  end.

(** [a or b] *)
Definition py_or (a b : json) : json := if truthy a then a else b.

(** [getattr(d, name, None)]: dicts, lists, strings and numbers have none
    of the attributes asked for below. *)
Definition getattr (d : pydoc) (name : string) : json :=
  match d with
  | LibObject (JObj attrs) => default JNull (dict_get name attrs)
  | _ => JNull
  end.

(** The body of the loop of [_normalize_docs]. [getattr] with a default
    raises nothing on these values, so the [except] branch is never
    entered and is left out. *)
Definition normalize_doc (d : pydoc) : json :=
  let content :=
    py_or (getattr d "page_content")
          (py_or (getattr d "content") (getattr d "text")) in
  let metadata :=
    py_or (getattr d "metadata") (py_or (getattr d "meta") (JObj [])) in
  JObj [("text", content); ("metadata", metadata)].

Definition _normalize_docs (docs : list pydoc) : list json :=
  map normalize_doc docs.

(** [h["text"]] on a normalised hit *)
Definition hit_text (h : json) : json :=
  match h with
  | JObj fields => default JNull (dict_get "text" fields)
  | _ => JNull
  end.

(** [sep.join(items)] on values that must all be strings *)
Fixpoint join_values (sep : string) (items : list json) : result string :=
  match items with
  | [] => Ret EmptyString
  | JStr s :: r =>
      result_bind (join_values sep r) (fun rest =>
        Ret (match r with [] => s | _ => s +:+ sep +:+ rest end))
  | _ :: _ => Raise (Exn TypeError "sequence item: expected str instance")
  end.

(** ["\n\n".join(h["text"] for h in hits if h["text"])] *)
Definition build_context (hits : list json) : result string :=
  join_values (String newline (String newline EmptyString))
              (List.filter truthy (map hit_text hits)).

Definition build_prompt (context query : string) : string :=
  "Use the following retrieved context to answer the question:"
  +:+ String newline (String newline EmptyString)
  +:+ context
  +:+ String newline (String newline EmptyString)
  +:+ "Question: " +:+ query
  +:+ String newline EmptyString
  +:+ "Answer concisely:".

Definition CHROMA_DB_DIR : string := "chroma_db".

Section Pipeline.

Context (env : Env).

(** [search_chroma] with the kind of every hit kept: objects from the
    vector store, plain values from the fallback file. *)
Definition search_chroma_tagged (query : string) (k : Z) (persist_directory : string)
  : M (list pydoc) :=
  opened <- get_chroma_db env persist_directory ;;
  let db := fst opened in
  found <- match db with
           | Some db =>
               try_except (r <- similarity_search env db query k ;;
                           ret (Some (map LibObject r)))
                          (fun e => ret None)
           | None => ret None
           end ;;
  match found with
  | Some r => ret r
  | None => r <- fallback_search env query k ;; ret (map Plain r)
  end.

(** [run_query]; [llm] is the callable that [get_llm()] hands out. *)
Definition run_query (llm : string -> result json) (query : string) (k : Z)
  : M json :=
  docs <- search_chroma_tagged query k CHROMA_DB_DIR ;;
  let hits := _normalize_docs docs in
  context <- lift (build_context hits) ;;
  let prompt := build_prompt context query in
  answer <- try_except (lift (llm prompt))
                       (fun e => ret (JStr ("[LLM_ERROR] " +:+ exn_msg e))) ;;
  ret (JObj [("result", answer); ("source_documents", JArr hits)]).

End Pipeline.

(** ** Vocabulary for the rest of the pipeline *)

(** The id of a stored record. *)
Definition record_id (d : json) : option json :=
  match d with
  | JObj fields => dict_get "id" fields
  | _ => None
  end.

(** The records are numbered by position: the one at index [i] has id
    ["doc-" (i + 1)]. *)
Definition well_numbered (items : list json) : Prop :=
  ∀ i d, items !! i = Some d →
         record_id d = Some (JStr ("doc-" +:+ PyStr.of_nat (i + 1))).

(** The stored records ranked for a query: by overlap, highest first,
    equal overlaps in stored order. *)
Definition ranking (query : string) (ds : list json) : list json :=
  map snd (sort_desc (map (λ d, (record_overlap query d, d)) ds)).

(** [m] leaves the fallback file as it finds it, whatever it returns. *)
Definition keeps_file {A} (m : M A) : Prop :=
  ∀ w, fallback_file (snd (m w)) = fallback_file w.

(** A word: not empty, no whitespace in it. *)
Definition is_word (t : string) : Prop :=
  t ≠ EmptyString ∧ Forall (λ c, PyStr.isspace c = false) (PyStr.chars t).

(** The windows of [size] words taken every [step] words. *)
Definition windows (words : list string) (size step : nat) : list (list string) :=
  map (λ j, take size (drop (j * step) words))
      (seq 0 ((length words + step - 1) / step)).

(** The calls of the append up to its write. *)
Definition load_calls (c : option file_content) : list op :=
  match c with
  | Some _ => [OpReadText]
  | None => []
  end.

(** More scenarios. *)
Module Cases.

(** A fallback file that parses, but not to a list. *)
Definition not_a_list : World := mkWorld (Some (Parsed (JObj []))) ∅ [].

(** An embedding service that refuses every batch. *)
Definition refusing : embedding_function :=
  λ _, Raise (Exn OtherError "rate limit exceeded").

(** An embedding service that answers with no vector at all. *)
Definition silent : embedding_function := λ _, Ret [].

(** A fallback file with two records numbered as the append numbers them. *)
Definition two_docs : World :=
  mkWorld (Some (Parsed (JArr (new_records 0 ["the cat sat"; "a dog ran"] None
                                 (_fake_embed ["the cat sat"; "a dog ran"])))))
          ∅ [].

(** The index opens and every call on it succeeds; a search finds [found]. *)
Definition healthy (found : list json) : Env :=
  mkEnv true None None None None None (λ _ _, None) (λ _ _ _, found).

(** The index opens, but every search on it fails. *)
Definition search_fails : Env :=
  mkEnv true None None None None None
        (λ _ o, match o with
                | OpSimilaritySearch _ _ => Some (Exn OtherError "index is closed")
                | _ => None
                end)
        (λ _ _ _, []).

(** A language model that echoes its prompt, and one that is down. *)
Definition echo : string → result json := λ prompt, Ret (JStr prompt).
Definition down : string → result json :=
  λ _, Raise (Exn OtherError "connection reset").

End Cases.

(** What a hit without the attributes looked for is normalised to. *)
Definition blank_hit : json := JObj [("text", JNull); ("metadata", JObj [])].

(** * Properties *)

(** ** Strings *)

Section Strings.

Lemma append_cons c a b : String c a +:+ b = String c (a +:+ b).
Proof. reflexivity. Qed.

Lemma append_nil b : "" +:+ b = b.
Proof. reflexivity. Qed.

Lemma chars_take n s : PyStr.chars (PyStr.take n s) = take n (PyStr.chars s).
Proof.
  revert s; induction n as [|n IH]; intros [|c r]; simpl; try reflexivity.
  unfold PyStr.chars in *; simpl; now rewrite IH.
Qed.

Lemma chars_app a b : PyStr.chars (a +:+ b) = PyStr.chars a ++ PyStr.chars b.
Proof.
  induction a as [|c a IH]; simpl; [reflexivity|].
  unfold PyStr.chars in *; simpl; now rewrite IH.
Qed.

Lemma chars_replicate n c : PyStr.chars (PyStr.replicate n c) = replicate n c.
Proof.
  induction n as [|n IH]; simpl; [reflexivity|].
  unfold PyStr.chars in *; simpl; now rewrite IH.
Qed.

Lemma chars_length s : length (PyStr.chars s) = String.length s.
Proof. induction s as [|c s IH]; simpl; [reflexivity|]. now f_equal. Qed.

Lemma lower_app a b : PyStr.lower (a +:+ b) = PyStr.lower a +:+ PyStr.lower b.
Proof. induction a as [|c a IH]; simpl; [reflexivity|]. now rewrite IH. Qed.

Lemma lower_app_inv s a b :
  PyStr.lower s = a +:+ b →
  ∃ a' b', s = a' +:+ b' ∧ PyStr.lower a' = a ∧ PyStr.lower b' = b.
Proof.
  revert s; induction a as [|c a IH]; intros s H; simpl in H.
  - exists "", s. auto.
  - destruct s as [|d s]; simpl in H; [discriminate|].
    injection H as Hc Hs. destruct (IH _ Hs) as (a' & b' & -> & Ha & Hb).
    exists (String d a'), b'. simpl. now rewrite Hc, Ha.
Qed.

(** What [split] returns are words: none is empty, none holds a space. *)
Lemma split_go_words (s tok : string) :
  Forall (λ c, PyStr.isspace c = false) (PyStr.chars tok) →
  Forall (λ t, t ≠ EmptyString
               ∧ Forall (λ c, PyStr.isspace c = false) (PyStr.chars t))
         (PyStr.split_go tok s).
Proof.
  revert tok; induction s as [|c r IH]; intros tok Htok; cbn [PyStr.split_go].
  - destruct tok; [constructor|].
    constructor; [split; [discriminate | exact Htok] | constructor].
  - destruct (PyStr.isspace c) eqn:Hc.
    + destruct tok.
      * apply IH. constructor.
      * constructor; [split; [discriminate | exact Htok]|]. apply IH. constructor.
    + apply IH. rewrite chars_app. apply Forall_app. split; [exact Htok|].
      now repeat constructor.
Qed.

Lemma split_words (s : string) :
  Forall (λ t, t ≠ EmptyString
               ∧ Forall (λ c, PyStr.isspace c = false) (PyStr.chars t))
         (PyStr.split s).
Proof. apply split_go_words. constructor. Qed.

Lemma prefix_spec p s : String.prefix p s = true ↔ ∃ post, s = p +:+ post.
Proof.
  revert s; induction p as [|c p IH]; intros s; simpl.
  - destruct s; split; eauto.
  - destruct s as [|d s]; [split; [discriminate | intros [? ?]; discriminate]|].
    simpl. destruct (ascii_dec c d) as [->|Hne].
    + rewrite IH. split; intros [post H]; exists post; rewrite append_cons in *.
      * now rewrite H.
      * now injection H.
    + split; [discriminate | intros [post H]; rewrite append_cons in H; congruence].
Qed.

Lemma contains_unfold pat s :
  PyStr.contains pat s =
  if String.prefix pat s then true
  else match s with
       | EmptyString => false
       | String _ r => PyStr.contains pat r
       end.
Proof. destruct s; reflexivity. Qed.

Lemma contains_spec pat s :
  PyStr.contains pat s = true ↔ ∃ pre post, s = pre +:+ pat +:+ post.
Proof.
  split.
  - induction s as [|c s IH]; rewrite contains_unfold;
      destruct (String.prefix pat _) eqn:Hp; try discriminate.
    + intros _. apply prefix_spec in Hp as [post ->]. now exists "", post.
    + intros _. apply prefix_spec in Hp as [post ->]. now exists "", post.
    + intros H. destruct (IH H) as (pre & post & ->).
      now exists (String c pre), post.
  - intros (pre & post & ->). induction pre as [|c pre IH].
    + rewrite contains_unfold.
      replace (String.prefix pat ("" +:+ pat +:+ post)) with true; [reflexivity|].
      symmetry. apply prefix_spec. now exists post.
    + rewrite contains_unfold. simpl String.append.
      destruct (String.prefix pat _); [reflexivity | exact IH].
Qed.

(** The test of the source, [needle in str(e).lower()], is containment
    with case ignored. *)
Lemma contains_lower_iff needle msg :
  PyStr.contains needle (PyStr.lower msg) = true ↔ ci_contains needle msg.
Proof.
  rewrite contains_spec. split.
  - intros (pre & post & H).
    apply lower_app_inv in H as (pre' & rest & -> & _ & H).
    apply lower_app_inv in H as (mid & post' & -> & H & _).
    now exists pre', mid, post'.
  - intros (pre & mid & post & -> & <-).
    exists (PyStr.lower pre), (PyStr.lower post). now rewrite !lower_app.
Qed.

Lemma open_mismatch_iff e : open_mismatch e = true ↔ open_pattern (exn_msg e).
Proof.
  unfold open_mismatch, open_pattern.
  rewrite !orb_true_iff, !contains_lower_iff. tauto.
Qed.

Lemma add_mismatch_iff e : add_mismatch e = true ↔ add_pattern (exn_msg e).
Proof.
  unfold add_mismatch, add_pattern.
  rewrite !orb_true_iff, !contains_lower_iff. tauto.
Qed.

End Strings.

(** ** The stub embedding and the adapter *)

Section Embedding.

Lemma lookup_map {A B} (f : A → B) (l : list A) (i : nat) :
  map f l !! i = f <$> (l !! i).
Proof. revert i; induction l as [|x l IH]; intros [|i]; simpl; auto. Qed.

Lemma window_lookup (cs : list ascii) (c : ascii) :
  take 32 (take 256 cs ++ replicate (32 - length (take 256 cs)) c)
  = map (λ j, nth j cs c) (seq 0 32).
Proof.
  apply list_eq; intros i. rewrite lookup_map.
  destruct (decide (i < 32)) as [Hi|Hi].
  - rewrite lookup_take_lt, lookup_seq_lt by lia. simpl.
    rewrite nth_lookup, length_take.
    destruct (decide (i < length cs)) as [Hl|Hl].
    + rewrite lookup_app_l by (rewrite length_take; lia).
      rewrite lookup_take_lt by lia.
      destruct (lookup_lt_is_Some_2 cs i Hl) as [x ->]. reflexivity.
    + rewrite lookup_app_r by (rewrite length_take; lia).
      rewrite lookup_replicate_2 by (rewrite length_take; lia).
      rewrite (lookup_ge_None_2 cs i) by lia. reflexivity.
  - rewrite lookup_take_ge, lookup_seq_ge by lia. reflexivity.
Qed.

Lemma fake_embed_vec_window (s : string) :
  _fake_embed_vec s = map (λ j, stub_component (window_char s j)) (seq 0 32).
Proof.
  unfold _fake_embed_vec, PyStr.ljust, window_char.
  rewrite chars_take, chars_app, chars_replicate, chars_take.
  rewrite <- chars_length, chars_take, window_lookup.
  now rewrite map_map.
Qed.

(** C8: the stub returns one vector per input text; each vector has
    exactly 32 components, component [j] being [ord(c) mod 97 / 97.0]
    for the character [c] at position [j] of the text cut or padded with
    NUL to 32 characters; and the same input gives the same output. *)
Theorem fake_embed_fixed_size (texts : list string) :
  _fake_embed texts
  = map (λ s, map (λ j, (PrimFloat.of_uint63
                           (Uint63.of_Z (PyStr.ord (window_char s j) mod 97))
                         / 97)%float)
                  (seq 0 32))
        texts
  ∧ length (_fake_embed texts) = length texts
  ∧ Forall (λ v : vector, length v = 32) (_fake_embed texts)
  ∧ ∀ s, _fake_embed [s] = _fake_embed [s].
Proof.
  assert (H : _fake_embed texts
              = map (λ s, map (λ j, stub_component (window_char s j)) (seq 0 32))
                    texts).
  { unfold _fake_embed. apply map_ext. apply fake_embed_vec_window. }
  split; [exact H|]. split; [|split].
  - unfold _fake_embed. apply length_map.
  - rewrite H. apply Forall_forall. intros v Hv.
    apply list_elem_of_In, in_map_iff in Hv as (s & <- & _).
    now rewrite length_map, length_seq.
  - reflexivity.
Qed.

(** C9: on the adapter, [embed_query(text)] is [embed_documents([text])[0]],
    and [embed_documents] is the wrapped function itself: nothing is kept
    between calls. *)
Theorem adapter_embed_query (fn : embedding_function) (text : string) :
  embed_query (Build_EmbeddingAdapter fn) text
  = result_bind (embed_documents (Build_EmbeddingAdapter fn) [text])
                (λ vs, py_index vs 0)
  ∧ ∀ texts, embed_documents (Build_EmbeddingAdapter fn) texts = fn texts.
Proof. split; reflexivity. Qed.

End Embedding.

(** ** Running the monad *)

Section Running.

Context (env : Env).

Lemma bind_ret_run {A B} (m : M A) (k : A → M B) (w w' : World) (a : A) :
  m w = (Ret a, w') → bind m k w = k a w'.
Proof. intros H. unfold bind. now rewrite H. Qed.

Lemma bind_raise_run {A B} (m : M A) (k : A → M B) (w w' : World) (e : exn) :
  m w = (Raise e, w') → bind m k w = (Raise e, w').
Proof. intros H. unfold bind. now rewrite H. Qed.

Lemma try_ret_run {A} (m : M A) (h : exn → M A) (w w' : World) (a : A) :
  m w = (Ret a, w') → try_except m h w = (Ret a, w').
Proof. intros H. unfold try_except. now rewrite H. Qed.

Lemma try_raise_run {A} (m : M A) (h : exn → M A) (w w' : World) (e : exn) :
  m w = (Raise e, w') → try_except m h w = h e w'.
Proof. intros H. unfold try_except. now rewrite H. Qed.

Lemma call_run (o : op) (w : World) :
  call env o w
  = (match fault env (history w) o with
     | None => Ret tt
     | Some e => Raise e
     end, after_call o w).
Proof. unfold call, after_call. now destruct (fault env (history w) o). Qed.

Lemma new_calls_app (w w' : World) (evs : list op) :
  history w' = history w ++ evs → new_calls w w' = evs.
Proof. intros H. unfold new_calls. rewrite H. apply drop_app_length. Qed.

(** Reinitialising never raises; it only removes and creates [p], and
    leaves it empty when the file system plays along. *)
Lemma reinit_spec (p : string) (w : World) :
  ∃ w' fs,
    _reinit_chroma_dir env p w = (Ret tt, w')
    ∧ history w' = history w ++ fs
    ∧ fs ≠ []
    ∧ Forall (λ o, o = OpRmtree p ∨ o = OpMkdir p) fs
    ∧ fallback_file w' = fallback_file w
    ∧ (dir_reliable env p → dirs w' !! p = Some []).
Proof.
  unfold _reinit_chroma_dir, try_except, bind, path_exists, gets, rmtree,
    mkdir, bind, modify, ret.
  destruct (dirs w !! p) as [l|] eqn:Hd.
  - rewrite bool_decide_eq_true_2 by eauto. rewrite call_run.
    destruct (fault env (history w) (OpRmtree p)) as [e|] eqn:Hrm.
    + eexists _, [OpRmtree p]. split; [reflexivity|]. cbn.
      repeat split; auto; try discriminate.
      intros Hr. destruct (Hr (history w)) as [Hr1 _]. congruence.
    + cbn [history after_call]. rewrite call_run. cbn [history].
      destruct (fault env (history w ++ [OpRmtree p]) (OpMkdir p)) as [e|] eqn:Hmk.
      * eexists _, [OpRmtree p; OpMkdir p]. split; [reflexivity|]. cbn.
        rewrite <- app_assoc. repeat split; auto; try discriminate.
        intros Hr. destruct (Hr (history w ++ [OpRmtree p])) as [_ Hr2]. congruence.
      * cbn [dirs after_call]. rewrite lookup_delete_eq.
        eexists _, [OpRmtree p; OpMkdir p]. split; [reflexivity|]. cbn.
        rewrite <- app_assoc, lookup_insert_eq. repeat split; auto; discriminate.
  - rewrite bool_decide_eq_false_2 by (intros [? ?]; discriminate).
    rewrite call_run.
    destruct (fault env (history w) (OpMkdir p)) as [e|] eqn:Hmk.
    + eexists _, [OpMkdir p]. split; [reflexivity|]. cbn.
      repeat split; auto; try discriminate.
      intros Hr. destruct (Hr (history w)) as [_ Hr2]. congruence.
    + cbn [dirs after_call]. rewrite Hd.
      eexists _, [OpMkdir p]. split; [reflexivity|]. cbn.
      rewrite lookup_insert_eq. repeat split; auto; discriminate.
Qed.

Lemma Chroma_run (a : _EmbeddingAdapter) (p : string) (w : World) :
  Chroma env a p w
  = (match fault env (history w) (OpChroma p (dirs w !! p)) with
     | None => Ret (mkDb a p)
     | Some e => Raise e
     end, after_call (OpChroma p (dirs w !! p)) w).
Proof.
  unfold Chroma, bind, gets, ret. rewrite call_run.
  now destruct (fault env (history w) _).
Qed.

End Running.

(** ** Opening the vector store *)

Section Opening.

Context (env : Env).

Let fn := get_embedding_function env.
Let handle (p : string) := mkDb (Build_EmbeddingAdapter fn) p.

Lemma open_unavailable (p : string) (w : World) :
  Chroma_imported env = false →
  get_chroma_db env p w = (Ret (None, fn), w).
Proof. intros H. unfold get_chroma_db. now rewrite H. Qed.

Lemma open_success (p : string) (w : World) :
  Chroma_imported env = true →
  fault env (history w) (OpChroma p (dirs w !! p)) = None →
  get_chroma_db env p w
  = (Ret (Some (handle p), fn), after_call (OpChroma p (dirs w !! p)) w).
Proof.
  intros Hi Hf. unfold get_chroma_db. rewrite Hi. cbn [negb].
  unfold try_except, bind. now rewrite Chroma_run, Hf.
Qed.

(** A failed open: either the message matches, the directory is
    reinitialised and the open is tried once more, or nothing follows. *)
Lemma open_failure_cases (p : string) (w : World) (e : exn) :
  Chroma_imported env = true →
  fault env (history w) (OpChroma p (dirs w !! p)) = Some e →
  let o := OpChroma p (dirs w !! p) in
  (open_mismatch e = true
   ∧ ∃ w1 fs,
       _reinit_chroma_dir env p (after_call o w) = (Ret tt, w1)
       ∧ history w1 = history w ++ o :: fs
       ∧ fs ≠ []
       ∧ Forall (λ o, o = OpRmtree p ∨ o = OpMkdir p) fs
       ∧ fallback_file w1 = fallback_file w
       ∧ (dir_reliable env p → dirs w1 !! p = Some [])
       ∧ get_chroma_db env p w
         = (Ret (match fault env (history w1) (OpChroma p (dirs w1 !! p)) with
                 | None => Some (handle p)
                 | Some _ => None
                 end, fn),
            after_call (OpChroma p (dirs w1 !! p)) w1))
  ∨ (open_mismatch e = false
     ∧ get_chroma_db env p w = (Ret (None, fn), after_call o w)).
Proof.
  intros Hi Hf o. unfold get_chroma_db. rewrite Hi. cbn [negb].
  unfold try_except, bind. rewrite Chroma_run, Hf.
  destruct (open_mismatch e); cbv beta iota; [left | right]; split; auto.
  subst o.
  destruct (reinit_spec env p (after_call (OpChroma p (dirs w !! p)) w))
    as (w1 & fs & Hrun & Hh & Hne & Hfs & Hff & Hd).
  exists w1, fs. rewrite Hrun, Chroma_run.
  repeat split; auto.
  - rewrite Hh. cbn. now rewrite <- app_assoc.
  - now destruct (fault env (history w1) _).
Qed.

(** Every open returns, never touches the fallback file, and calls only
    the index constructor and the directory operations. *)
Lemma get_chroma_db_spec (p : string) (w : World) :
  ∃ db w' evs,
    get_chroma_db env p w = (Ret (db, fn), w')
    ∧ history w' = history w ++ evs
    ∧ Forall (λ o, is_open o || is_reinit o = true) evs
    ∧ fallback_file w' = fallback_file w.
Proof.
  destruct (Chroma_imported env) eqn:Hi.
  - destruct (fault env (history w) (OpChroma p (dirs w !! p))) as [e|] eqn:Hf.
    + destruct (open_failure_cases p w e Hi Hf)
        as [(_ & w1 & fs & _ & Hh & _ & Hfs & Hff & _ & Hrun) | (_ & Hrun)].
      * eexists _, _, (OpChroma p (dirs w !! p) :: fs ++ [OpChroma p (dirs w1 !! p)]).
        split; [exact Hrun|]. cbn. rewrite Hh, <- app_assoc. repeat split; auto.
        constructor; [reflexivity|]. apply Forall_app. split.
        -- eapply Forall_impl; [exact Hfs|]. now intros o [-> | ->].
        -- now repeat constructor.
      * eexists _, _, [OpChroma p (dirs w !! p)].
        split; [exact Hrun|]. cbn. repeat split; auto.
    + eexists _, _, [OpChroma p (dirs w !! p)].
      split; [now apply open_success|]. cbn. repeat split; auto.
  - eexists _, _, []. split; [now apply open_unavailable|].
    rewrite app_nil_r. repeat split; auto.
Qed.

(** C7: whatever becomes of the vector index -- the import missing, the
    open succeeding, the open failing with or without a retry -- the open
    returns, and its second component is the resolved embedding function,
    also when the handle is absent. *)
Theorem open_returns_embedding_function (p : string) (w : World) :
  ∃ db w',
    get_chroma_db env p w = (Ret (db, get_embedding_function env), w')
    ∧ (Chroma_imported env = false → db = None).
Proof.
  destruct (get_chroma_db_spec p w) as (db & w' & evs & Hrun & _).
  exists db, w'. split; [exact Hrun|].
  intros Hi. rewrite open_unavailable in Hrun by exact Hi. congruence.
Qed.

(** C6: when the open fails with a message that contains "dimension",
    "embedding" or "mismatch", case ignored, the persist directory is
    removed and created anew (left empty when the file system does not
    fail) and the open is tried exactly once more; a failure of that
    retry, or any other failure of the first open, gives an absent
    handle, and nothing is raised. *)
Theorem open_reinit_retry_once (p : string) (w : World) (e : exn) :
  Chroma_imported env = true →
  fault env (history w) (OpChroma p (dirs w !! p)) = Some e →
  ∃ db w' evs,
    get_chroma_db env p w = (Ret (db, get_embedding_function env), w')
    ∧ history w' = history w ++ OpChroma p (dirs w !! p) :: evs
    ∧ (open_pattern (exn_msg e) →
         ∃ fs, evs = fs ++ [OpChroma p (dirs w' !! p)]
               ∧ fs ≠ []
               ∧ Forall (λ o, o = OpRmtree p ∨ o = OpMkdir p) fs
               ∧ (dir_reliable env p → dirs w' !! p = Some [])
               ∧ db = match fault env (history w ++ OpChroma p (dirs w !! p) :: fs)
                                  (OpChroma p (dirs w' !! p)) with
                      | None => Some (mkDb (Build_EmbeddingAdapter
                                              (get_embedding_function env)) p)
                      | Some _ => None
                      end)
    ∧ (¬ open_pattern (exn_msg e) →
         evs = [] ∧ db = None ∧ dirs w' = dirs w).
Proof.
  intros Hi Hf.
  destruct (open_failure_cases p w e Hi Hf)
    as [(Hm & w1 & fs & _ & Hh & Hne & Hfs & _ & Hd & Hrun) | (Hm & Hrun)].
  - eexists _, _, (fs ++ [OpChroma p (dirs w1 !! p)]).
    split; [exact Hrun|]. cbn. split; [|split].
    + rewrite Hh, <- app_assoc. reflexivity.
    + intros _. exists fs. rewrite Hh. repeat split; auto.
    + intros Hn. apply open_mismatch_iff in Hm. contradiction.
  - eexists _, _, []. split; [exact Hrun|]. cbn. split; [|split]; auto.
    intros Hp. apply open_mismatch_iff in Hp. congruence.
Qed.

End Opening.

(** ** Appending to the fallback store *)

Section Appending.

Context (env : Env).

Lemma metadata_at_spec (metadatas : option (list json)) (i : nat) :
  metadata_at metadatas i = metadata_or_empty metadatas i.
Proof.
  destruct metadatas as [[|m l]|]; try reflexivity.
  unfold metadata_at, metadata_or_empty.
  destruct (Nat.ltb_spec i (length (m :: l))) as [H|H]; [reflexivity|].
  now rewrite (lookup_ge_None_2 (m :: l) i) by lia.
Qed.

(** The loop appends one record per text, numbered on from the records
    already there, as long as every text has its embedding. *)
Lemma append_records_run (n : nat) (metadatas : option (list json))
      (embs : list vector) (texts : list string) :
  ∀ (items : list json) (k : nat),
    length items = n + k →
    (k + length texts ≤ length embs)%nat →
    append_records (JArr items) k texts metadatas embs
    = Ret (JArr (items ++
                 imap (λ j t, new_record n (k + j) t
                                (metadata_or_empty metadatas (k + j))
                                (default [] (embs !! (k + j))))
                      texts)).
Proof.
  induction texts as [|t rest IH]; intros items k Hlen Hk; cbn [append_records].
  - now rewrite app_nil_r.
  - cbn [length] in Hk. unfold py_index.
    destruct (lookup_lt_is_Some_2 embs k ltac:(lia)) as [e He].
    rewrite He. cbn [result_bind].
    rewrite IH by (rewrite ?length_app; cbn; lia).
    rewrite <- app_assoc. cbn [imap app]. do 3 f_equal. f_equal.
    + unfold new_record, vector in *.
      rewrite Nat.add_0_r, He, metadata_at_spec, Hlen.
      reflexivity.
    + apply imap_ext. intros j x _. cbn. now rewrite Nat.add_succ_r.
Qed.

Lemma append_records_new (items : list json) (texts : list string)
      (metadatas : option (list json)) (embs : list vector) :
  (length texts ≤ length embs)%nat →
  append_records (JArr items) 0 texts metadatas embs
  = Ret (JArr (items ++ new_records (length items) texts metadatas embs)).
Proof.
  intros H. rewrite (append_records_run (length items)) by lia. reflexivity.
Qed.

Lemma new_records_length n texts metadatas embs :
  length (new_records n texts metadatas embs) = length texts.
Proof. unfold new_records. apply length_imap. Qed.

Lemma new_records_lookup n texts metadatas embs i t :
  texts !! i = Some t →
  new_records n texts metadatas embs !! i
  = Some (new_record n i t (metadata_or_empty metadatas i)
                     (default [] (embs !! i))).
Proof. intros H. unfold new_records. now rewrite list_lookup_imap, H. Qed.

(** What the append path loads from the file. *)
Lemma load_run (w : World) :
  file_reliable env →
  ∃ w1,
    (there <- fallback_exists ;;
     if there : bool
     then try_except (c <- read_text env ;; lift (json_loads c))
                     (λ _, ret (JArr []))
     else ret (JArr [])) w
    = (Ret (loaded (fallback_file w)), w1)
    ∧ fallback_file w1 = fallback_file w
    ∧ dirs w1 = dirs w
    ∧ history w1
      = history w ++ match fallback_file w with
                     | Some _ => [OpReadText]
                     | None => []
                     end.
Proof.
  intros Hr. unfold bind, fallback_exists, gets, try_except, read_text, bind.
  destruct (fallback_file w) as [c|] eqn:Hc.
  - rewrite bool_decide_eq_true_2 by eauto. rewrite call_run.
    destruct (Hr (history w)) as [-> _]. unfold gets.
    cbn [fallback_file after_call]. rewrite Hc. unfold ret, lift.
    destruct c as [|v]; cbn; eexists; repeat split; auto.
  - rewrite bool_decide_eq_false_2 by (intros [? ?]; discriminate).
    eexists. unfold ret. repeat split; auto. now rewrite app_nil_r.
Qed.

(** The append, when the file holds a list (or nothing readable), the
    embedding function answers for every text, and the file can be read
    and written. *)
Lemma fallback_append_run (fn : embedding_function) (texts : list string)
      (metadatas : option (list json)) (w : World)
      (items : list json) (embs : list vector) :
  loaded (fallback_file w) = JArr items →
  fn texts = Ret embs →
  (length texts ≤ length embs)%nat →
  file_reliable env →
  ∃ w',
    fallback_append env fn texts metadatas w = (Ret tt, w')
    ∧ fallback_file w'
      = Some (Parsed (JArr (items ++
                            new_records (length items) texts metadatas embs)))
    ∧ dirs w' = dirs w
    ∧ history w' = history w ++ append_calls (fallback_file w).
Proof.
  intros Hl Hfn Hlen Hr.
  destruct (load_run w Hr) as (w1 & Hrun & Hf1 & Hd1 & Hh1).
  unfold fallback_append.
  rewrite (bind_ret_run _ _ _ _ _ Hrun), Hl.
  rewrite (bind_ret_run _ _ w1 w1 embs) by (unfold lift; now rewrite Hfn).
  rewrite (bind_ret_run _ _ w1 w1
             (JArr (items ++ new_records (length items) texts metadatas embs)))
    by (unfold lift; now rewrite append_records_new).
  unfold write_text, bind, modify. rewrite call_run.
  destruct (Hr (history w1)) as [_ ->].
  eexists. split; [reflexivity|]. cbn. rewrite Hd1, Hh1.
  repeat split; auto.
  destruct (fallback_file w); cbn; now rewrite <- ?app_assoc, ?app_nil_r.
Qed.

Lemma stored_loaded (c : option file_content) (items : list json) :
  stored c = Some items → loaded c = JArr items.
Proof.
  destruct c as [[|[]]|]; cbn; intros H; try discriminate; congruence.
Qed.

(** C1: appending [n] texts to a fallback file of [N] records (an absent
    file has none) leaves a file of exactly [N + n] records: the old ones
    untouched and in place, then one record per text in input order,
    the text at index [i] under the id ["doc-" (N + i + 1)]. *)
Theorem fallback_append_monotone (fn : embedding_function)
        (texts : list string) (metadatas : option (list json)) (w : World)
        (items : list json) (embs : list vector) :
  stored (fallback_file w) = Some items →
  fn texts = Ret embs →
  (length texts ≤ length embs)%nat →
  file_reliable env →
  ∃ w' new,
    fallback_append env fn texts metadatas w = (Ret tt, w')
    ∧ fallback_file w' = Some (Parsed (JArr (items ++ new)))
    ∧ length (items ++ new) = (length items + length texts)%nat
    ∧ ∀ i t, texts !! i = Some t →
        ∃ md e,
          new !! i
          = Some (JObj [("id", JStr ("doc-" +:+ PyStr.of_nat (length items + i + 1)));
                        ("text", JStr t);
                        ("metadata", md);
                        ("embedding", e)]).
Proof.
  intros Hs Hfn Hlen Hr. apply stored_loaded in Hs.
  destruct (fallback_append_run fn texts metadatas w items embs Hs Hfn Hlen Hr)
    as (w' & Hrun & Hfile & _).
  exists w', (new_records (length items) texts metadatas embs).
  split; [exact Hrun|]. split; [exact Hfile|]. split.
  - now rewrite length_app, new_records_length.
  - intros i t Ht. rewrite (new_records_lookup _ _ _ _ _ _ Ht).
    unfold new_record. eauto.
Qed.

(** C10: the append does not depend on the metadata list covering the
    texts. Whatever [metadatas] is -- [None], short, or long enough --
    nothing is raised, one record per text is written, and the text at
    index [i] gets [metadatas[i]] when there is one and [{}] otherwise. *)
Theorem fallback_append_short_metadata (fn : embedding_function)
        (texts : list string) (metadatas : option (list json)) (w : World)
        (items : list json) (embs : list vector) :
  stored (fallback_file w) = Some items →
  fn texts = Ret embs →
  (length texts ≤ length embs)%nat →
  file_reliable env →
  ∃ w' new,
    fallback_append env fn texts metadatas w = (Ret tt, w')
    ∧ fallback_file w' = Some (Parsed (JArr (items ++ new)))
    ∧ length new = length texts
    ∧ ∀ i t, texts !! i = Some t →
        ∃ id e,
          new !! i
          = Some (JObj [("id", id);
                        ("text", JStr t);
                        ("metadata",
                          match metadatas with
                          | Some l => match l !! i with
                                      | Some m => m
                                      | None => JObj []
                                      end
                          | None => JObj []
                          end);
                        ("embedding", e)]).
Proof.
  intros Hs Hfn Hlen Hr. apply stored_loaded in Hs.
  destruct (fallback_append_run fn texts metadatas w items embs Hs Hfn Hlen Hr)
    as (w' & Hrun & Hfile & _).
  exists w', (new_records (length items) texts metadatas embs).
  split; [exact Hrun|]. split; [exact Hfile|]. split.
  - apply new_records_length.
  - intros i t Ht. rewrite (new_records_lookup _ _ _ _ _ _ Ht).
    unfold new_record, metadata_or_empty.
    destruct metadatas as [l|]; [destruct (l !! i)|]; eauto.
Qed.

(** On an unparsable file the append starts from nothing: afterwards the
    file holds the new records and only them. *)
Lemma fallback_append_corrupt (fn : embedding_function)
      (texts : list string) (metadatas : option (list json)) (w : World)
      (embs : list vector) :
  fallback_file w = Some Unparsable →
  fn texts = Ret embs →
  (length texts ≤ length embs)%nat →
  file_reliable env →
  ∃ w',
    fallback_append env fn texts metadatas w = (Ret tt, w')
    ∧ fallback_file w'
      = Some (Parsed (JArr (new_records 0 texts metadatas embs))).
Proof.
  intros Hc Hfn Hlen Hr.
  destruct (fallback_append_run fn texts metadatas w [] embs) as (w' & Hrun & Hfile & _);
    auto.
  - now rewrite Hc.
  - eauto.
Qed.

End Appending.

(** ** Which calls a function can make *)

Section Emitting.

Context (env : Env).

Lemma emits_ret {A} P (a : A) : emits P (ret a).
Proof. intros w. exists []. cbn. now rewrite app_nil_r. Qed.

Lemma emits_lift {A} P (r : result A) : emits P (lift r).
Proof. intros w. exists []. cbn. now rewrite app_nil_r. Qed.

Lemma emits_raise {A} P (e : exn) : emits P (@raise A e).
Proof. intros w. exists []. cbn. now rewrite app_nil_r. Qed.

Lemma emits_gets {A} P (f : World → A) : emits P (gets f).
Proof. intros w. exists []. cbn. now rewrite app_nil_r. Qed.

Lemma emits_modify P (f : World → World) :
  (∀ w, history (f w) = history w) → emits P (modify f).
Proof. intros H w. exists []. cbn. now rewrite H, app_nil_r. Qed.

Lemma emits_call (P : op → bool) (o : op) : P o = true → emits P (call env o).
Proof.
  intros H w. exists [o]. rewrite call_run. cbn. split; [reflexivity|].
  now repeat constructor.
Qed.

Lemma emits_bind {A B} P (m : M A) (k : A → M B) :
  emits P m → (∀ a, emits P (k a)) → emits P (bind m k).
Proof.
  intros Hm Hk w. unfold bind. destruct (Hm w) as (evs & Hh & Hall).
  destruct (m w) as [[a|e] w1]; cbn in Hh.
  - destruct (Hk a w1) as (evs' & Hh' & Hall').
    exists (evs ++ evs'). rewrite Hh', Hh, <- app_assoc.
    split; [reflexivity|]. now apply Forall_app.
  - exists evs. auto.
Qed.

Lemma emits_try {A} P (m : M A) (h : exn → M A) :
  emits P m → (∀ e, emits P (h e)) → emits P (try_except m h).
Proof.
  intros Hm Hh w. unfold try_except. destruct (Hm w) as (evs & Hw & Hall).
  destruct (m w) as [[a|e] w1]; cbn in Hw.
  - exists evs. auto.
  - destruct (Hh e w1) as (evs' & Hw' & Hall').
    exists (evs ++ evs'). rewrite Hw', Hw, <- app_assoc.
    split; [reflexivity|]. now apply Forall_app.
Qed.

(** The fallback append, however it ends, only reads and writes the
    fallback file. *)
Lemma fallback_append_emits fn texts metadatas :
  emits is_file (fallback_append env fn texts metadatas).
Proof.
  unfold fallback_append.
  apply emits_bind; [|intros items].
  { apply emits_bind; [apply emits_gets|intros [|]; [|apply emits_ret]].
    apply emits_try; [|intros _; apply emits_ret].
    apply emits_bind; [|intros c; apply emits_lift].
    unfold read_text. apply emits_bind; [now apply emits_call|intros _].
    apply emits_bind; [apply emits_gets|].
    intros [c|]; [apply emits_ret | apply emits_raise]. }
  apply emits_bind; [apply emits_lift|intros embs].
  apply emits_bind; [apply emits_lift|intros items'].
  unfold write_text. apply emits_bind; [now apply emits_call|intros _].
  now apply emits_modify.
Qed.

Lemma adds_app (a b : list op) : adds (a ++ b) = (adds a + adds b)%nat.
Proof. unfold adds. now rewrite List.filter_app, length_app. Qed.

Lemma adds_none (P : op → bool) (evs : list op) :
  (∀ o, P o = true → is_add o = false) →
  Forall (λ o, P o = true) evs → adds evs = 0%nat.
Proof.
  intros HP Hall. unfold adds. induction Hall as [|o evs Ho _ IH]; [reflexivity|].
  cbn. now rewrite (HP o Ho).
Qed.

End Emitting.

(** ** Adding documents *)

Section Adding.

Context (env : Env).

Let fn := get_embedding_function env.

Lemma persist_swallowed (db : Db) (w : World) :
  try_except (persist env db) (λ _, ret tt) w = (Ret tt, after_call OpPersist w).
Proof.
  unfold try_except, persist. rewrite call_run.
  now destruct (fault env (history w) OpPersist).
Qed.

(** One attempt to add: the add, then the persist whose failure is
    swallowed. *)
Lemma add_attempt (db : Db) (texts : list string) (ms : list json) (w : World) :
  (add_texts env db texts ms ;;
   try_except (persist env db) (λ _, ret tt) ;;
   ret Returned)%py w
  = match fault env (history w) (OpAddTexts texts ms) with
    | None => (Ret Returned, after_call OpPersist (after_call (OpAddTexts texts ms) w))
    | Some e => (Raise e, after_call (OpAddTexts texts ms) w)
    end.
Proof.
  unfold bind at 1. unfold add_texts. rewrite call_run.
  destruct (fault env (history w) (OpAddTexts texts ms)); [reflexivity|].
  unfold bind. now rewrite persist_swallowed.
Qed.

Lemma add_no_handle texts metadatas p w w1 :
  get_chroma_db env p w = (Ret (None, fn), w1) →
  add_documents_to_chroma env texts metadatas p w
  = fallback_append env fn texts metadatas w1.
Proof.
  intros Hopen. unfold add_documents_to_chroma.
  rewrite (bind_ret_run _ _ _ _ _ Hopen). reflexivity.
Qed.

Lemma add_succeeds texts metadatas p w db w1 :
  get_chroma_db env p w = (Ret (Some db, fn), w1) →
  fault env (history w1) (OpAddTexts texts (metadatas_or_empty metadatas texts)) = None →
  add_documents_to_chroma env texts metadatas p w
  = (Ret tt, after_call OpPersist
               (after_call (OpAddTexts texts (metadatas_or_empty metadatas texts)) w1)).
Proof.
  intros Hopen Hadd. unfold add_documents_to_chroma.
  rewrite (bind_ret_run _ _ _ _ _ Hopen). cbv beta iota.
  erewrite bind_ret_run; cycle 1.
  { apply try_ret_run. now rewrite add_attempt, Hadd. }
  reflexivity.
Qed.

(** A failed add whose message does not match goes to the fallback
    store at once. *)
Lemma add_fails_unmatched texts metadatas p w db w1 e :
  get_chroma_db env p w = (Ret (Some db, fn), w1) →
  fault env (history w1) (OpAddTexts texts (metadatas_or_empty metadatas texts)) = Some e →
  add_mismatch e = false →
  add_documents_to_chroma env texts metadatas p w
  = fallback_append env fn texts metadatas
      (after_call (OpAddTexts texts (metadatas_or_empty metadatas texts)) w1).
Proof.
  intros Hopen Hadd Hm. unfold add_documents_to_chroma.
  rewrite (bind_ret_run _ _ _ _ _ Hopen). cbv beta iota.
  erewrite bind_ret_run; cycle 1.
  { erewrite try_raise_run by (now rewrite add_attempt, Hadd).
    rewrite Hm. reflexivity. }
  reflexivity.
Qed.

(** A failed add whose message matches: reinitialise, reopen, and with a
    handle add once more. *)
Lemma add_fails_matched texts metadatas p w db w1 e w2 db2 w3 :
  let o := OpAddTexts texts (metadatas_or_empty metadatas texts) in
  get_chroma_db env p w = (Ret (Some db, fn), w1) →
  fault env (history w1) o = Some e →
  add_mismatch e = true →
  _reinit_chroma_dir env p (after_call o w1) = (Ret tt, w2) →
  get_chroma_db env p w2 = (Ret (db2, fn), w3) →
  add_documents_to_chroma env texts metadatas p w
  = match db2 with
    | None => fallback_append env fn texts metadatas w3
    | Some _ =>
        match fault env (history w3) o with
        | None => (Ret tt, after_call OpPersist (after_call o w3))
        | Some _ => fallback_append env fn texts metadatas (after_call o w3)
        end
    end.
Proof.
  intros o Hopen Hadd Hm Hre Hopen2. subst o. unfold add_documents_to_chroma.
  rewrite (bind_ret_run _ _ _ _ _ Hopen). cbv beta iota.
  set (k := λ f : flow, match f with
                        | Returned => ret tt
                        | FallsThrough => fallback_append env fn texts metadatas
                        end).
  unfold bind at 1.
  erewrite try_raise_run by (now rewrite add_attempt, Hadd).
  rewrite Hm.
  rewrite (bind_ret_run _ _ _ _ _ Hre).
  rewrite (bind_ret_run _ _ _ _ _ Hopen2). cbn [fst].
  destruct db2 as [d2|].
  - unfold try_except. rewrite add_attempt.
    now destruct (fault env (history w3) _).
  - reflexivity.
Qed.

Lemma adds_reinit (p : string) (fs : list op) :
  Forall (λ c, c = OpRmtree p ∨ c = OpMkdir p) fs → adds fs = 0%nat.
Proof.
  intros H. apply (adds_none is_reinit); [now intros []|].
  eapply Forall_impl; [exact H|]. now intros c [-> | ->].
Qed.

Lemma adds_open (evs : list op) :
  Forall (λ o, is_open o || is_reinit o = true) evs → adds evs = 0%nat.
Proof. apply (adds_none (λ o, is_open o || is_reinit o)). now intros []. Qed.

Lemma adds_file (evs : list op) :
  Forall (λ o, is_file o = true) evs → adds evs = 0%nat.
Proof. apply (adds_none is_file). now intros []. Qed.

(** C4, as the code has it: let every add fail with a message that holds
    none of the words the add path looks for: "dimension", "mismatch" and
    "shape", case ignored. Then ingesting ["hello world"] with metadata
    [{"source": "x"}] returns normally; after the open there is at most
    the one failed add and then only the fallback file is read and
    written -- no directory is reinitialised, no add repeated; and the
    file ends with one new record carrying that text and that metadata. *)
Theorem ingest_survives_add_failure (p : string) (w : World)
        (items : list json) (embs : list vector) :
  (∀ h t m, ∃ e, fault env h (OpAddTexts t m) = Some e
                 ∧ ¬ add_pattern (exn_msg e)) →
  file_reliable env →
  loaded (fallback_file w) = JArr items →
  get_embedding_function env ["hello world"] = Ret embs →
  embs ≠ [] →
  ∃ db w1 w' v,
    get_chroma_db env p w = (Ret (db, get_embedding_function env), w1)
    ∧ add_documents_to_chroma env ["hello world"]
        (Some [JObj [("source", JStr "x")]]) p w
      = (Ret tt, w')
    ∧ new_calls w1 w'
      = match db with
        | Some _ => [OpAddTexts ["hello world"] [JObj [("source", JStr "x")]]]
        | None => []
        end ++ append_calls (fallback_file w)
    ∧ dirs w' = dirs w1
    ∧ fallback_file w'
      = Some (Parsed (JArr (items ++
          [JObj [("id", JStr ("doc-" +:+ PyStr.of_nat (length items + 1)));
                 ("text", JStr "hello world");
                 ("metadata", JObj [("source", JStr "x")]);
                 ("embedding", json_of_vector v)]]))).
Proof.
  intros Hadd Hr Hl Hfn Hne.
  destruct embs as [|v embs]; [contradiction|].
  destruct (get_chroma_db_spec env p w) as (db & w1 & evs & Hopen & Hh & _ & Hff).
  set (texts := ["hello world"]) in *.
  set (ms := Some [JObj [("source", JStr "x")]]).
  assert (Hrec : new_records (length items) texts ms (v :: embs)
                 = [JObj [("id", JStr ("doc-" +:+ PyStr.of_nat (length items + 1)));
                          ("text", JStr "hello world");
                          ("metadata", JObj [("source", JStr "x")]);
                          ("embedding", json_of_vector v)]]).
  { cbn. unfold new_record. now rewrite Nat.add_0_r. }
  destruct db as [d|].
  - destruct (Hadd (history w1) texts (metadatas_or_empty ms texts))
      as (e & Hf & Hn).
    assert (Hm : add_mismatch e = false).
    { destruct (add_mismatch e) eqn:E; [|reflexivity].
      apply add_mismatch_iff in E. contradiction. }
    set (w1' := after_call (OpAddTexts texts (metadatas_or_empty ms texts)) w1).
    destruct (fallback_append_run env fn texts ms w1' items (v :: embs))
      as (w' & Hrun & Hfile & Hd & Hh'); auto.
    { cbn. now rewrite Hff. }
    { cbn. lia. }
    exists (Some d), w1, w', v. split; [exact Hopen|]. split.
    { rewrite (add_fails_unmatched _ _ _ _ _ _ _ Hopen Hf Hm). exact Hrun. }
    split; [|split]; [| exact Hd | now rewrite Hfile, Hrec].
    apply new_calls_app. rewrite Hh'. cbn. rewrite Hff, <- app_assoc. reflexivity.
  - destruct (fallback_append_run env fn texts ms w1 items (v :: embs))
      as (w' & Hrun & Hfile & Hd & Hh'); auto.
    { now rewrite Hff. }
    { cbn. lia. }
    exists None, w1, w', v. split; [exact Hopen|]. split.
    { rewrite (add_no_handle _ _ _ _ _ Hopen). exact Hrun. }
    split; [|split]; [| exact Hd | now rewrite Hfile, Hrec].
    apply new_calls_app. rewrite Hh', Hff. reflexivity.
Qed.

(** C5, as the code has it: when an add fails with a message that
    contains "dimension", "mismatch" or "shape", case ignored, the persist
    directory is removed and created anew (left empty when the file
    system does not fail), the store is opened afresh, and with a handle
    the add is tried exactly once more: two add attempts in all, one when
    no handle comes back. A failure of that retry is not raised: the
    texts go to the fallback store. *)
Theorem add_mismatch_retry_once (texts : list string)
        (metadatas : option (list json)) (p : string) (w : World)
        (db : Db) (w1 : World) (e : exn) :
  get_chroma_db env p w = (Ret (Some db, get_embedding_function env), w1) →
  fault env (history w1) (add_call texts metadatas) = Some e →
  add_pattern (exn_msg e) →
  ∃ w2 fs db2 w3,
    _reinit_chroma_dir env p (after_call (add_call texts metadatas) w1)
    = (Ret tt, w2)
    ∧ history w2 = history w1 ++ add_call texts metadatas :: fs
    ∧ fs ≠ []
    ∧ Forall (λ c, c = OpRmtree p ∨ c = OpMkdir p) fs
    ∧ (dir_reliable env p → dirs w2 !! p = Some [])
    ∧ get_chroma_db env p w2 = (Ret (db2, get_embedding_function env), w3)
    ∧ add_documents_to_chroma env texts metadatas p w
      = match db2 with
        | None =>
            fallback_append env (get_embedding_function env) texts metadatas w3
        | Some _ =>
            match fault env (history w3) (add_call texts metadatas) with
            | None =>
                (Ret tt,
                 after_call OpPersist (after_call (add_call texts metadatas) w3))
            | Some _ =>
                fallback_append env (get_embedding_function env) texts metadatas
                  (after_call (add_call texts metadatas) w3)
            end
        end
    ∧ adds (new_calls w1 (snd (add_documents_to_chroma env texts metadatas p w)))
      = match db2 with Some _ => 2%nat | None => 1%nat end.
Proof.
  intros Hopen Hf Hp. apply add_mismatch_iff in Hp.
  set (o := add_call texts metadatas) in *.
  destruct (reinit_spec env p (after_call o w1))
    as (w2 & fs & Hre & Hh2 & Hne & Hfs & _ & Hd).
  destruct (get_chroma_db_spec env p w2) as (db2 & w3 & evs & Hopen2 & Hh3 & Hall & _).
  exists w2, fs, db2, w3.
  pose proof (add_fails_matched texts metadatas p w db w1 e w2 db2 w3
                Hopen Hf Hp Hre Hopen2) as Hrun.
  fold o in Hrun. cbn [history after_call] in Hh2. rewrite <- app_assoc in Hh2.
  split; [exact Hre|]. split; [exact Hh2|]. split; [exact Hne|].
  split; [exact Hfs|]. split; [exact Hd|]. split; [exact Hopen2|].
  split; [exact Hrun|].
  rewrite Hrun. fold (add_call texts metadatas). fold o.
  assert (Hbase : adds ([o] ++ fs ++ evs) = 1%nat).
  { rewrite !adds_app, (adds_reinit _ _ Hfs), (adds_open _ Hall). reflexivity. }
  assert (H3 : history w3 = history w1 ++ ([o] ++ fs ++ evs)).
  { rewrite Hh3, Hh2, <- !app_assoc. reflexivity. }
  destruct db2 as [d2|].
  - destruct (fault env (history w3) o).
    + destruct (fallback_append_emits env fn texts metadatas (after_call o w3))
        as (fe & Hfe & Hfile).
      rewrite (new_calls_app _ _ (([o] ++ fs ++ evs) ++ [o] ++ fe)).
      * rewrite !adds_app in *. rewrite (adds_file _ Hfile). cbn in *. lia.
      * rewrite Hfe. cbn. rewrite H3, <- !app_assoc. reflexivity.
    + rewrite (new_calls_app _ _ (([o] ++ fs ++ evs) ++ [o; OpPersist])).
      * rewrite !adds_app in *. cbn in *. lia.
      * cbn. rewrite H3, <- !app_assoc. reflexivity.
  - destruct (fallback_append_emits env fn texts metadatas w3) as (fe & Hfe & Hfile).
    rewrite (new_calls_app _ _ (([o] ++ fs ++ evs) ++ fe)).
    + rewrite adds_app, (adds_file _ Hfile). lia.
    + rewrite Hfe, H3, <- !app_assoc. reflexivity.
Qed.

End Adding.

(** ** Searching the fallback store *)

Section Sorting.

Context {A : Type}.
Implicit Types (x y : nat * A) (l : list (nat * A)).

Lemma insert_desc_perm x l : insert_desc x l ≡ₚ x :: l.
Proof.
  induction l as [|y r IH]; cbn [insert_desc]; [reflexivity|].
  destruct (fst x <? fst y)%nat; [|reflexivity].
  rewrite IH. apply Permutation_swap.
Qed.

Lemma sort_desc_perm l : sort_desc l ≡ₚ l.
Proof.
  induction l as [|x l IH]; [reflexivity|].
  cbn. now rewrite insert_desc_perm, IH.
Qed.

(** Inserting keeps the entries of every key in their order, the new
    entry first among its equals. *)
Lemma insert_desc_filter (s : nat) x l :
  filter (λ y, fst y = s) (insert_desc x l) = filter (λ y, fst y = s) (x :: l).
Proof.
  induction l as [|y r IH]; cbn [insert_desc]; [reflexivity|].
  destruct (Nat.ltb_spec (fst x) (fst y)) as [H|H]; [|reflexivity].
  rewrite (filter_cons _ y), IH, !filter_cons.
  repeat case_decide; try reflexivity. lia.
Qed.

Lemma sort_desc_filter (s : nat) l :
  filter (λ y, fst y = s) (sort_desc l) = filter (λ y, fst y = s) l.
Proof.
  induction l as [|x l IH]; [reflexivity|].
  cbn [sort_desc foldr]. fold (sort_desc l).
  now rewrite insert_desc_filter, !filter_cons, IH.
Qed.

Lemma insert_desc_sorted x l :
  StronglySorted (λ a b, fst b ≤ fst a) l →
  StronglySorted (λ a b, fst b ≤ fst a) (insert_desc x l).
Proof.
  induction l as [|y r IH]; cbn [insert_desc]; intros Hs.
  - now repeat constructor.
  - apply StronglySorted_inv in Hs as [Hr Hy].
    destruct (Nat.ltb_spec (fst x) (fst y)) as [H|H].
    + constructor; [now apply IH|].
      rewrite insert_desc_perm. constructor; [lia | exact Hy].
    + constructor; [now constructor|].
      constructor; [exact H|]. eapply Forall_impl; [exact Hy|].
      cbn. intros z Hz. lia.
Qed.

Lemma sort_desc_sorted l : StronglySorted (λ a b, fst b ≤ fst a) (sort_desc l).
Proof.
  induction l as [|x l IH]; [constructor|].
  cbn [sort_desc foldr]. now apply insert_desc_sorted.
Qed.

(** Keys that are a function of the entry: the order on the pairs is the
    order on the entries. *)
Context (f : A → nat).

Lemma keyed_perm l :
  Forall (λ x, fst x = f (snd x)) l →
  Forall (λ x, fst x = f (snd x)) (sort_desc l).
Proof. intros H. now rewrite sort_desc_perm. Qed.

Lemma keyed_filter (s : nat) l :
  Forall (λ x, fst x = f (snd x)) l →
  filter (λ d, f d = s) (map snd l) = map snd (filter (λ x, fst x = s) l).
Proof.
  induction 1 as [|x l Hx _ IH]; [reflexivity|].
  cbn [map]. rewrite !filter_cons, IH, <- Hx.
  now case_decide.
Qed.

Lemma keyed_sorted l :
  Forall (λ x, fst x = f (snd x)) l →
  StronglySorted (λ a b, fst b ≤ fst a) l →
  StronglySorted (λ a b, f b ≤ f a) (map snd l).
Proof.
  intros Hk Hs. induction Hs as [|x l Hs IH Hx]; [constructor|].
  apply Forall_cons in Hk as [Hkx Hk].
  cbn [map]. constructor; [now apply IH|].
  apply Forall_forall. intros d Hd.
  apply list_elem_of_In, in_map_iff in Hd as (y & <- & Hy).
  apply list_elem_of_In in Hy.
  rewrite Forall_forall in Hx, Hk.
  rewrite <- Hkx, <- (Hk y Hy). now apply Hx.
Qed.

Lemma map_snd_keyed (ds : list A) : map snd (map (λ d, (f d, d)) ds) = ds.
Proof. rewrite map_map. cbn. apply map_id. Qed.

Lemma keyed_map (ds : list A) :
  Forall (λ x : nat * A, fst x = f (snd x)) (map (λ d, (f d, d)) ds).
Proof. induction ds; cbn; now constructor. Qed.

End Sorting.

Section Searching.

Context (env : Env).

(** The size of the intersection of the two token sets is the number of
    distinct query words that occur in the text. *)
Lemma tokens_overlap (query text : string) :
  size (tokens query ∩ tokens text) = token_overlap query text.
Proof.
  unfold token_overlap, tokens, size, set_size. cbn.
  apply Permutation_length, NoDup_Permutation.
  - apply NoDup_elements.
  - apply NoDup_remove_dups.
  - intros t.
    rewrite elem_of_elements, elem_of_intersection, !elem_of_list_to_set.
    rewrite elem_of_remove_dups, list_elem_of_filter. tauto.
Qed.

Lemma score_spec (query : string) (d : json) (text : string) :
  record_text d = Some text →
  score (tokens query) d = Ret (record_overlap query d).
Proof.
  unfold record_overlap, score. intros H.
  destruct d as [| | | | |?|fields]; try discriminate.
  unfold record_text in *.
  destruct (dict_get "text" fields) as [[| | | |s| |]|]; try discriminate;
    rewrite <- tokens_overlap; reflexivity.
Qed.

Lemma score_all_spec (query : string) (ds : list json) :
  Forall (λ d, is_Some (record_text d)) ds →
  score_all (tokens query) ds
  = Ret (map (λ d, (record_overlap query d, d)) ds).
Proof.
  unfold score_all. induction 1 as [|d ds [text Hd] _ IH]; [reflexivity|].
  cbn [result_map map]. rewrite (score_spec _ _ _ Hd). cbn [result_bind].
  now rewrite IH.
Qed.

Lemma read_text_run (w : World) (c : file_content) :
  file_reliable env →
  fallback_file w = Some c →
  read_text env w = (Ret c, after_call OpReadText w).
Proof.
  intros Hr Hc. unfold read_text, bind, gets. rewrite call_run.
  destruct (Hr (history w)) as [-> _]. cbn. now rewrite Hc.
Qed.

Lemma exists_run (w : World) (c : file_content) :
  fallback_file w = Some c → fallback_exists w = (Ret true, w).
Proof.
  intros Hc. unfold fallback_exists, gets.
  now rewrite bool_decide_eq_true_2 by (rewrite Hc; eauto).
Qed.

Lemma py_slice_to_nonneg {A} (k : Z) (l : list A) :
  (0 ≤ k)%Z → py_slice_to k l = take (Z.to_nat k) l.
Proof. intros H. unfold py_slice_to. now rewrite (proj2 (Z.leb_le 0 k) H). Qed.

(** The search of a file that holds a list of records. *)
Lemma fallback_search_run (query : string) (k : Z) (w : World) (ds : list json) :
  file_reliable env →
  fallback_file w = Some (Parsed (JArr ds)) →
  Forall (λ d, is_Some (record_text d)) ds →
  fallback_search env query k w
  = (Ret (map snd (py_slice_to k
                     (sort_desc (map (λ d, (record_overlap query d, d)) ds)))),
     after_call OpReadText w).
Proof.
  intros Hr Hc Hds. unfold fallback_search.
  rewrite (bind_ret_run _ _ _ _ _ (exists_run w _ Hc)). cbn [negb].
  rewrite (bind_ret_run _ _ _ _ _ (read_text_run w _ Hr Hc)).
  unfold bind, lift. cbn [json_loads py_iter].
  now rewrite score_all_spec.
Qed.

(** On an unparsable file the search raises what [json.loads] raises. *)
Lemma fallback_search_corrupt (query : string) (k : Z) (w : World) :
  file_reliable env →
  fallback_file w = Some Unparsable →
  fallback_search env query k w
  = (Raise (Exn JSONDecodeError "Expecting value"), after_call OpReadText w).
Proof.
  intros Hr Hc. unfold fallback_search.
  rewrite (bind_ret_run _ _ _ _ _ (exists_run w _ Hc)). cbn [negb].
  rewrite (bind_ret_run _ _ _ _ _ (read_text_run w _ Hr Hc)).
  reflexivity.
Qed.

(** C2: the fallback search ranks the stored records by token overlap
    with the query -- the number of distinct lower-case,
    whitespace-separated words of the query found in the record's text
    -- in descending order, records of equal overlap staying in stored
    order, and returns the first [k] of that ranking. *)
Theorem fallback_search_ranking (query : string) (k : Z) (w : World)
        (ds : list json) :
  file_reliable env →
  fallback_file w = Some (Parsed (JArr ds)) →
  Forall (λ d, is_Some (record_text d)) ds →
  (0 ≤ k)%Z →
  ∃ ranked w',
    fallback_search env query k w = (Ret (take (Z.to_nat k) ranked), w')
    ∧ ranked ≡ₚ ds
    ∧ StronglySorted
        (λ a b, record_overlap query b ≤ record_overlap query a) ranked
    ∧ (∀ s, filter (λ d, record_overlap query d = s) ranked
            = filter (λ d, record_overlap query d = s) ds)
    ∧ (∀ d text, d ∈ ds → record_text d = Some text →
         record_overlap query d
         = size ((list_to_set (PyStr.split (PyStr.lower query)) : gset string)
                 ∩ list_to_set (PyStr.split (PyStr.lower text)))).
Proof.
  intros Hr Hc Hds Hk.
  set (scored := map (λ d, (record_overlap query d, d)) ds).
  exists (map snd (sort_desc scored)), (after_call OpReadText w).
  pose proof (keyed_map (record_overlap query) ds) as Hkey.
  fold scored in Hkey.
  split; [|split; [|split; [|split]]].
  - rewrite (fallback_search_run query k w ds Hr Hc Hds).
    rewrite py_slice_to_nonneg by exact Hk.
    fold scored. now rewrite firstn_map.
  - rewrite sort_desc_perm. unfold scored. now rewrite map_snd_keyed.
  - apply keyed_sorted; [now apply keyed_perm | apply sort_desc_sorted].
  - intros s. rewrite (keyed_filter (record_overlap query)) by now apply keyed_perm.
    rewrite sort_desc_filter.
    rewrite <- (keyed_filter (record_overlap query)) by exact Hkey.
    unfold scored. now rewrite map_snd_keyed.
  - intros d text _ Ht. unfold record_overlap. rewrite Ht. cbn.
    symmetry. apply tokens_overlap.
Qed.

End Searching.

(** ** The properties at work *)

Section Instances.

Import Scenario.

Lemma offline_file_reliable : file_reliable offline.
Proof. intros h. split; reflexivity. Defined.

(** Two texts appended to an absent file. *)
Lemma fallback_append_monotone_witness :
  ∃ w' new,
    fallback_append offline stub ["a"; "b"] None fresh = (Ret tt, w')
    ∧ fallback_file w' = Some (Parsed (JArr ([] ++ new)))
    ∧ length ([] ++ new) = (0 + 2)%nat
    ∧ ∀ i t, ["a"; "b"] !! i = Some t →
        ∃ md e,
          new !! i
          = Some (JObj [("id", JStr ("doc-" +:+ PyStr.of_nat (0 + i + 1)));
                        ("text", JStr t);
                        ("metadata", md);
                        ("embedding", e)]).
Proof.
  apply (fallback_append_monotone offline stub ["a"; "b"] None fresh []
           (_fake_embed ["a"; "b"])).
  - reflexivity.
  - reflexivity.
  - cbn. lia.
  - exact offline_file_reliable.
Defined.

(** From an absent file, two texts and then one more: three records,
    numbered in the order they came. *)
Example append_twice_ids :
  let w1 := snd (add_documents_to_chroma offline ["a"; "b"] None chroma_db fresh) in
  let w2 := snd (add_documents_to_chroma offline ["c"] None chroma_db w1) in
  match fallback_file w2 with
  | Some (Parsed (JArr l)) =>
      map (λ d, match d with
                | JObj f => (dict_get "id" f, dict_get "text" f)
                | _ => (None, None)
                end) l
  | _ => []
  end
  = [(Some (JStr "doc-1"), Some (JStr "a"));
     (Some (JStr "doc-2"), Some (JStr "b"));
     (Some (JStr "doc-3"), Some (JStr "c"))].
Proof. vm_compute. reflexivity. Qed.

(** The search example of the specification, through the theorem. *)
Lemma fallback_search_ranking_witness :
  ∃ ranked w',
    fallback_search offline "cat sat" 3 cat_dog = (Ret (take 3 ranked), w')
    ∧ ranked ≡ₚ [text_record "the cat sat"; text_record "a dog ran"]
    ∧ StronglySorted
        (λ a b, record_overlap "cat sat" b ≤ record_overlap "cat sat" a) ranked.
Proof.
  destruct (fallback_search_ranking offline "cat sat" 3 cat_dog
              [text_record "the cat sat"; text_record "a dog ran"])
    as (ranked & w' & Hrun & Hperm & Hsorted & _).
  - exact offline_file_reliable.
  - reflexivity.
  - repeat constructor; eexists; reflexivity.
  - lia.
  - exists ranked, w'. auto.
Defined.

(** The same example, run: "the cat sat" shares two words with the
    query, "a dog ran" none, and the former comes first. *)
Example search_cat_sat :
  fst (search_chroma offline "cat sat" 3 chroma_db cat_dog)
  = Ret [text_record "the cat sat"; text_record "a dog ran"]
  ∧ fst (search_chroma offline "cat sat" 1 chroma_db cat_dog)
    = Ret [text_record "the cat sat"]
  ∧ record_overlap "cat sat" (text_record "the cat sat") = 2%nat
  ∧ record_overlap "cat sat" (text_record "a dog ran") = 0%nat
  ∧ fst (search_chroma offline "cat sat" 3 chroma_db fresh) = Ret [].
Proof. vm_compute. repeat split; reflexivity. Qed.

(** C3: with an unparsable fallback file and no vector store, the search
    does not recover: it raises the parse error. The append on the same
    file does recover, and leaves exactly the one new record. *)
Theorem search_corrupt_file_raises :
  fst (search_chroma offline "a" 3 chroma_db corrupt)
  = Raise (Exn JSONDecodeError "Expecting value")
  ∧ fst (add_documents_to_chroma offline ["a"] None chroma_db corrupt) = Ret tt
  ∧ fallback_file (snd (add_documents_to_chroma offline ["a"] None chroma_db corrupt))
    = Some (Parsed (JArr (new_records 0 ["a"] None (_fake_embed ["a"])))).
Proof. vm_compute. repeat split; reflexivity. Qed.

Lemma refused_unmatched : ¬ add_pattern "connection refused".
Proof.
  intros H. apply (add_mismatch_iff (Exn OtherError "connection refused")) in H.
  discriminate H.
Defined.

(** An index on disk whose add is refused every time. *)
Lemma ingest_survives_add_failure_witness :
  ∃ db w1 w' v,
    get_chroma_db (add_fails "connection refused") chroma_db indexed
    = (Ret (db, get_embedding_function (add_fails "connection refused")), w1)
    ∧ add_documents_to_chroma (add_fails "connection refused") ["hello world"]
        (Some [JObj [("source", JStr "x")]]) chroma_db indexed
      = (Ret tt, w')
    ∧ new_calls w1 w'
      = match db with
        | Some _ => [OpAddTexts ["hello world"] [JObj [("source", JStr "x")]]]
        | None => []
        end ++ append_calls (fallback_file indexed)
    ∧ dirs w' = dirs w1
    ∧ fallback_file w'
      = Some (Parsed (JArr ([] ++
          [JObj [("id", JStr ("doc-" +:+ PyStr.of_nat (0 + 1)));
                 ("text", JStr "hello world");
                 ("metadata", JObj [("source", JStr "x")]);
                 ("embedding", json_of_vector v)]]))).
Proof.
  apply (ingest_survives_add_failure (add_fails "connection refused") chroma_db
           indexed [] (_fake_embed ["hello world"])).
  - intros h t m. exists (Exn OtherError "connection refused").
    split; [reflexivity | exact refused_unmatched].
  - intros h. split; reflexivity.
  - reflexivity.
  - reflexivity.
  - discriminate.
Defined.

(** C4 as stated fails. Let every add fail with "array has wrong shape":
    the message holds none of "dimension", "embedding" and "mismatch", the
    words of the mismatch pattern, but the add path tests for "shape" as
    well. The ingest still returns and the record reaches the fallback
    file, yet not without a reinit retry: the index on disk is removed,
    the store is opened again and the add is made a second time. *)
Lemma shape_failure_is_retried :
  ¬ open_pattern "array has wrong shape"
  ∧ add_pattern "array has wrong shape"
  ∧ (∀ h t m, fault (add_fails "array has wrong shape") h (OpAddTexts t m)
              = Some (Exn OtherError "array has wrong shape"))
  ∧ fst (add_documents_to_chroma (add_fails "array has wrong shape")
           ["hello world"] (Some [JObj [("source", JStr "x")]])
           chroma_db indexed)
    = Ret tt
  ∧ history (snd (add_documents_to_chroma (add_fails "array has wrong shape")
                    ["hello world"] (Some [JObj [("source", JStr "x")]])
                    chroma_db indexed))
    = [OpChroma chroma_db (Some ["chroma.sqlite3"]);
       OpAddTexts ["hello world"] [JObj [("source", JStr "x")]];
       OpRmtree chroma_db; OpMkdir chroma_db;
       OpChroma chroma_db (Some []);
       OpAddTexts ["hello world"] [JObj [("source", JStr "x")]];
       OpWriteText]
  ∧ dirs (snd (add_documents_to_chroma (add_fails "array has wrong shape")
                 ["hello world"] (Some [JObj [("source", JStr "x")]])
                 chroma_db indexed)) !! chroma_db
    = Some []
  ∧ fallback_file (snd (add_documents_to_chroma
                          (add_fails "array has wrong shape")
                          ["hello world"] (Some [JObj [("source", JStr "x")]])
                          chroma_db indexed))
    = Some (Parsed (JArr [new_record 0 0 "hello world"
                            (JObj [("source", JStr "x")])
                            (_fake_embed_vec "hello world")])).
Proof.
  split.
  { intros H.
    apply (open_mismatch_iff (Exn OtherError "array has wrong shape")) in H.
    discriminate H. }
  split.
  { right; right. exists "array has wrong ", "shape", "".
    split; reflexivity. }
  split; [reflexivity|].
  repeat split; vm_compute; reflexivity.
Qed.

Lemma dimension_message_add_pattern : add_pattern dimension_message.
Proof.
  left. exists "Embedding ", "dimension",
          " 384 does not match collection dimensionality 32".
  split; reflexivity.
Defined.

(** An index on disk, a first add refused for its dimension, a second
    add accepted. *)
Lemma add_mismatch_retry_once_witness :
  ∃ w2 fs db2 w3,
    _reinit_chroma_dir (add_fails_once dimension_message) chroma_db
      (after_call (add_call ["a"] None) opened)
    = (Ret tt, w2)
    ∧ history w2 = history opened ++ add_call ["a"] None :: fs
    ∧ fs ≠ []
    ∧ Forall (λ c, c = OpRmtree chroma_db ∨ c = OpMkdir chroma_db) fs
    ∧ (dir_reliable (add_fails_once dimension_message) chroma_db →
       dirs w2 !! chroma_db = Some [])
    ∧ get_chroma_db (add_fails_once dimension_message) chroma_db w2
      = (Ret (db2, get_embedding_function (add_fails_once dimension_message)), w3)
    ∧ adds (new_calls opened
              (snd (add_documents_to_chroma (add_fails_once dimension_message)
                      ["a"] None chroma_db indexed)))
      = match db2 with Some _ => 2%nat | None => 1%nat end.
Proof.
  destruct (add_mismatch_retry_once (add_fails_once dimension_message)
              ["a"] None chroma_db indexed
              (mkDb (Build_EmbeddingAdapter
                       (get_embedding_function (add_fails_once dimension_message)))
                    chroma_db)
              opened (Exn OtherError dimension_message))
    as (w2 & fs & db2 & w3 & H1 & H2 & H3 & H4 & H5 & H6 & _ & H8).
  - reflexivity.
  - reflexivity.
  - exact dimension_message_add_pattern.
  - exists w2, fs, db2, w3. auto 10.
Defined.

(** What that run does, call by call. *)
Example add_retry_trace :
  history (snd (add_documents_to_chroma (add_fails_once dimension_message)
                  ["a"] None chroma_db indexed))
  = [OpChroma chroma_db (Some ["chroma.sqlite3"]);
     OpAddTexts ["a"] [JObj []];
     OpRmtree chroma_db; OpMkdir chroma_db;
     OpChroma chroma_db (Some []);
     OpAddTexts ["a"] [JObj []];
     OpPersist].
Proof. vm_compute. reflexivity. Qed.

(** C5 as stated fails, twice over. Let the add fail with a message that
    contains "embedding", one of the three words of the claim: the store
    had opened and the message matches, yet the directory keeps its
    contents, the store is not reopened and the add is not repeated; the
    texts go to the fallback file after the one attempt. And let the add
    fail with a message that contains "dimension" while the store cannot
    be opened again: the directory is reinitialised, but without a handle
    there is no second add. *)
Lemma add_embedding_failure_not_retried :
  open_pattern "Embedding model is not loaded"
  ∧ get_chroma_db (add_fails "Embedding model is not loaded") chroma_db indexed
    = (Ret (Some (mkDb (Build_EmbeddingAdapter
                          (get_embedding_function
                             (add_fails "Embedding model is not loaded")))
                       chroma_db),
            get_embedding_function (add_fails "Embedding model is not loaded")),
       after_call (OpChroma chroma_db (Some ["chroma.sqlite3"])) indexed)
  ∧ fault (add_fails "Embedding model is not loaded")
          [OpChroma chroma_db (Some ["chroma.sqlite3"])] (add_call ["a"] None)
    = Some (Exn OtherError "Embedding model is not loaded")
  ∧ history (snd (add_documents_to_chroma
                    (add_fails "Embedding model is not loaded")
                    ["a"] None chroma_db indexed))
    = [OpChroma chroma_db (Some ["chroma.sqlite3"]);
       OpAddTexts ["a"] [JObj []];
       OpWriteText]
  ∧ dirs (snd (add_documents_to_chroma
                 (add_fails "Embedding model is not loaded")
                 ["a"] None chroma_db indexed)) !! chroma_db
    = Some ["chroma.sqlite3"]
  ∧ open_pattern dimension_message
  ∧ fault (add_fails_store_lost dimension_message)
          [OpChroma chroma_db (Some ["chroma.sqlite3"])] (add_call ["a"] None)
    = Some (Exn OtherError dimension_message)
  ∧ history (snd (add_documents_to_chroma
                    (add_fails_store_lost dimension_message)
                    ["a"] None chroma_db indexed))
    = [OpChroma chroma_db (Some ["chroma.sqlite3"]);
       OpAddTexts ["a"] [JObj []];
       OpRmtree chroma_db; OpMkdir chroma_db;
       OpChroma chroma_db (Some []);
       OpWriteText].
Proof.
  split.
  { right; left. exists "", "Embedding", " model is not loaded".
    split; reflexivity. }
  do 4 (split; [vm_compute; reflexivity|]).
  split.
  { left. exists "Embedding ", "dimension",
            " 384 does not match collection dimensionality 32".
    split; reflexivity. }
  split; vm_compute; reflexivity.
Qed.

(** An index on disk that no longer fits the embedding: the first open
    fails, the second, on the emptied directory, succeeds. *)
Lemma open_reinit_retry_once_witness :
  ∃ db w' evs,
    get_chroma_db (open_fails_once dimension_message) chroma_db indexed
    = (Ret (db, get_embedding_function (open_fails_once dimension_message)), w')
    ∧ history w'
      = history indexed ++ OpChroma chroma_db (Some ["chroma.sqlite3"]) :: evs
    ∧ (open_pattern dimension_message →
         ∃ fs, evs = fs ++ [OpChroma chroma_db (dirs w' !! chroma_db)]
               ∧ fs ≠ []
               ∧ Forall (λ o, o = OpRmtree chroma_db ∨ o = OpMkdir chroma_db) fs
               ∧ (dir_reliable (open_fails_once dimension_message) chroma_db →
                  dirs w' !! chroma_db = Some [])).
Proof.
  destruct (open_reinit_retry_once (open_fails_once dimension_message)
              chroma_db indexed (Exn OtherError dimension_message))
    as (db & w' & evs & Hrun & Hh & Hyes & _).
  - reflexivity.
  - reflexivity.
  - exists db, w', evs. split; [exact Hrun|]. split; [exact Hh|].
    intros Hp. destruct (Hyes Hp) as (fs & H1 & H2 & H3 & H4 & _).
    exists fs. auto.
Defined.

Example open_retry_trace :
  fst (get_chroma_db (open_fails_once dimension_message) chroma_db indexed)
  = Ret (Some (mkDb (Build_EmbeddingAdapter
                       (get_embedding_function (open_fails_once dimension_message)))
                    chroma_db),
         get_embedding_function (open_fails_once dimension_message))
  ∧ history (snd (get_chroma_db (open_fails_once dimension_message)
                    chroma_db indexed))
    = [OpChroma chroma_db (Some ["chroma.sqlite3"]);
       OpRmtree chroma_db; OpMkdir chroma_db;
       OpChroma chroma_db (Some [])].
Proof. split; reflexivity. Qed.

(** Two texts, one metadata entry. *)
Lemma fallback_append_short_metadata_witness :
  ∃ w' new,
    fallback_append offline stub ["a"; "b"] (Some [source_x]) fresh = (Ret tt, w')
    ∧ fallback_file w' = Some (Parsed (JArr ([] ++ new)))
    ∧ length new = 2%nat
    ∧ new !! 0%nat
      = Some (new_record 0 0 "a" source_x (_fake_embed_vec "a"))
    ∧ new !! 1%nat
      = Some (new_record 0 1 "b" (JObj []) (_fake_embed_vec "b")).
Proof.
  destruct (fallback_append_short_metadata offline stub ["a"; "b"]
              (Some [source_x]) fresh [] (_fake_embed ["a"; "b"]))
    as (w' & new & Hrun & Hfile & Hlen & Hnew).
  - reflexivity.
  - reflexivity.
  - cbn. lia.
  - exact offline_file_reliable.
  - exists w', new. split; [exact Hrun|]. split; [exact Hfile|].
    split; [exact Hlen|].
    assert (Hw : snd (fallback_append offline stub ["a"; "b"] (Some [source_x]) fresh)
                 = w') by now rewrite Hrun.
    apply (f_equal fallback_file) in Hw. rewrite Hfile in Hw.
    vm_compute in Hw. injection Hw as <-. split; reflexivity.
Defined.

End Instances.


(** * Further properties *)

(** ** Provider resolution and the stub *)

Section Resolution.

(** When no tier above the stub is usable -- the remote client is not
    there, has no key, or cannot be built; the two local back ends are not
    there or cannot be built -- the resolved function is the stub. *)
Theorem resolve_stub_when_nothing_usable (env : Env) :
  (_GroqEmbeddings env = None
   ∨ GROQ_API_KEY env = None
   ∨ GROQ_API_KEY env = Some EmptyString
   ∨ ∃ cls key e, _GroqEmbeddings env = Some cls
                  ∧ GROQ_API_KEY env = Some key
                  ∧ groq_new_with_key cls key = Raise e
                  ∧ exn_cls e ≠ TypeError) →
  (_HuggingFaceEmbeddings env = None
   ∨ ∃ cls e, _HuggingFaceEmbeddings env = Some cls
              ∧ cls (default "all-MiniLM-L6-v2" (EMBEDDING_MODEL env)) = Raise e) →
  (_SentenceTransformer env = None
   ∨ ∃ cls e, _SentenceTransformer env = Some cls
              ∧ cls (default "all-MiniLM-L6-v2" (EMBEDDING_MODEL env)) = Raise e) →
  ∀ texts, get_embedding_function env texts = Ret (_fake_embed texts).
Proof.
  intros H1 H2 H3 texts. unfold get_embedding_function. cbv zeta.
  destruct H2 as [-> | (c2 & e2 & -> & ->)];
    destruct H3 as [-> | (c3 & e3 & -> & ->)];
    destruct H1 as [-> | [-> | [-> | (cls & key & e & -> & -> & Hk & Hne)]]];
    try reflexivity;
    try (destruct (_GroqEmbeddings env); reflexivity);
    (destruct key; [reflexivity|]; rewrite Hk;
     destruct e as [[] msg]; cbn in Hne; try contradiction; reflexivity).
Qed.

Lemma resolve_stub_when_nothing_usable_witness :
  get_embedding_function Scenario.offline ["hello world"]
  = Ret (_fake_embed ["hello world"]).
Proof.
  apply (resolve_stub_when_nothing_usable Scenario.offline).
  - left. reflexivity.
  - left. reflexivity.
  - left. reflexivity.
Defined.

(** The stub tells two texts apart only by the residues modulo 97 of
    their first 32 characters, a missing character counting as NUL. *)
Theorem fake_embed_congruent (s1 s2 : string) :
  (∀ j, j < 32 →
        (PyStr.ord (window_char s1 j) mod 97 = PyStr.ord (window_char s2 j) mod 97)%Z) →
  _fake_embed [s1] = _fake_embed [s2].
Proof.
  intros H. unfold _fake_embed. cbn [map]. f_equal.
  rewrite !fake_embed_vec_window. apply map_ext_in.
  intros j Hj. apply in_seq in Hj. unfold stub_component.
  now rewrite H by lia.
Qed.

(** "a" is 97: the one-letter text embeds like the empty one. *)
Lemma fake_embed_congruent_witness : _fake_embed ["a"] = _fake_embed [EmptyString].
Proof.
  apply fake_embed_congruent. intros j Hj.
  destruct j as [|[|j]]; reflexivity.
Defined.

Lemma stub_component_range (c : ascii) :
  PrimFloat.leb 0 (stub_component c) = true
  ∧ PrimFloat.ltb (stub_component c) 1 = true.
Proof.
  destruct c as [[] [] [] [] [] [] [] []]; vm_compute; split; reflexivity.
Qed.

(** Every component of every stub vector lies in [0, 1). *)
Theorem fake_embed_unit_range (texts : list string) :
  Forall (λ v : vector,
            Forall (λ x, PrimFloat.leb 0 x = true ∧ PrimFloat.ltb x 1 = true) v)
         (_fake_embed texts).
Proof.
  unfold _fake_embed. apply Forall_forall. intros v Hv.
  apply list_elem_of_In, in_map_iff in Hv as (s & <- & _).
  unfold _fake_embed_vec. apply Forall_forall. intros x Hx.
  apply list_elem_of_In, in_map_iff in Hx as (c & <- & _).
  apply stub_component_range.
Qed.

End Resolution.

(** ** Reinitialising the persist directory *)

Section Reinitialising.

Context (env : Env).

(** [_reinit_chroma_dir] never raises, and a failure it meets stays
    hidden from its caller. It removes the directory only when the path
    exists; when the removal fails it does not go on to create the
    directory; otherwise it creates it. It makes no other call, and when
    the calls it makes succeed the directory is there and empty. *)
Theorem reinit_swallows_failures (p : string) (w : World) :
  ∃ w',
    _reinit_chroma_dir env p w = (Ret tt, w')
    ∧ match dirs w !! p with
      | Some _ =>
          match fault env (history w) (OpRmtree p) with
          | Some _ => new_calls w w' = [OpRmtree p]
          | None =>
              new_calls w w' = [OpRmtree p; OpMkdir p]
              ∧ (fault env (history w ++ [OpRmtree p]) (OpMkdir p) = None →
                 dirs w' !! p = Some [])
          end
      | None =>
          new_calls w w' = [OpMkdir p]
          ∧ (fault env (history w) (OpMkdir p) = None → dirs w' !! p = Some [])
      end.
Proof.
  unfold _reinit_chroma_dir, try_except, bind, path_exists, gets, rmtree,
    mkdir, bind, modify, ret.
  destruct (dirs w !! p) as [l|] eqn:Hd.
  - rewrite bool_decide_eq_true_2 by eauto. rewrite call_run.
    destruct (fault env (history w) (OpRmtree p)) as [e|].
    + eexists. split; [reflexivity|]. now apply new_calls_app.
    + cbn [history after_call]. rewrite call_run. cbn [history].
      destruct (fault env (history w ++ [OpRmtree p]) (OpMkdir p)) as [e|].
      * eexists. split; [reflexivity|]. split; [|discriminate].
        apply new_calls_app. cbn. now rewrite <- app_assoc.
      * cbn [dirs after_call]. rewrite lookup_delete_eq.
        eexists. split; [reflexivity|]. split.
        -- apply new_calls_app. cbn. now rewrite <- app_assoc.
        -- intros _. cbn. apply lookup_insert_eq.
  - rewrite bool_decide_eq_false_2 by (intros [? ?]; discriminate).
    rewrite call_run.
    destruct (fault env (history w) (OpMkdir p)) as [e|].
    + eexists. split; [reflexivity|]. split; [|discriminate].
      now apply new_calls_app.
    + cbn [dirs after_call]. rewrite Hd.
      eexists. split; [reflexivity|]. split.
      * now apply new_calls_app.
      * intros _. cbn. apply lookup_insert_eq.
Qed.

End Reinitialising.

(** ** Adding documents: the paths not taken above *)

Section AddingMore.

Context (env : Env).

(** Every run of [add_documents_to_chroma] either returns after a
    successful add, or ends in the fallback append; up to that point the
    fallback file is untouched and the add has been tried at most twice. *)
Lemma add_outcomes (texts : list string) (metadatas : option (list json))
      (p : string) (w : World) :
  ∃ w0 evs,
    history w0 = history w ++ evs
    ∧ adds evs ≤ 2
    ∧ fallback_file w0 = fallback_file w
    ∧ (add_documents_to_chroma env texts metadatas p w = (Ret tt, w0)
       ∨ add_documents_to_chroma env texts metadatas p w
         = fallback_append env (get_embedding_function env) texts metadatas w0).
Proof.
  set (o := add_call texts metadatas).
  destruct (get_chroma_db_spec env p w) as (db & w1 & evs1 & Hopen & Hh1 & Hall1 & Hff1).
  pose proof (adds_open _ Hall1) as Ha1.
  destruct db as [d|].
  - destruct (fault env (history w1) o) as [e|] eqn:Hf.
    + destruct (add_mismatch e) eqn:Hm.
      * destruct (reinit_spec env p (after_call o w1))
          as (w2 & fs & Hre & Hh2 & _ & Hfs & Hff2 & _).
        destruct (get_chroma_db_spec env p w2)
          as (db2 & w3 & evs3 & Hopen2 & Hh3 & Hall3 & Hff3).
        pose proof (add_fails_matched env texts metadatas p w d w1 e w2 db2 w3
                      Hopen Hf Hm Hre Hopen2) as Hrun.
        fold (add_call texts metadatas) in Hrun. fold o in Hrun.
        cbn [history after_call fallback_file] in Hh2, Hff2.
        pose proof (adds_open _ Hall3) as Ha3.
        pose proof (adds_reinit _ _ Hfs) as Ha2.
        assert (H3 : history w3 = history w ++ (evs1 ++ [o] ++ fs ++ evs3)).
        { rewrite Hh3, Hh2, Hh1, <- !app_assoc. reflexivity. }
        assert (Hf3 : fallback_file w3 = fallback_file w) by congruence.
        destruct db2 as [d2|].
        -- destruct (fault env (history w3) o).
           ++ exists (after_call o w3), ((evs1 ++ [o] ++ fs ++ evs3) ++ [o]).
              cbn [history after_call fallback_file]. rewrite H3. split; [now rewrite <- !app_assoc|].
              split; [rewrite !adds_app, Ha1, Ha2, Ha3; cbn; lia|]. auto.
           ++ exists (after_call OpPersist (after_call o w3)),
                ((evs1 ++ [o] ++ fs ++ evs3) ++ [o; OpPersist]).
              cbn [history after_call fallback_file]. rewrite H3. split; [now rewrite <- !app_assoc|].
              split; [rewrite !adds_app, Ha1, Ha2, Ha3; cbn; lia|]. auto.
        -- exists w3, (evs1 ++ [o] ++ fs ++ evs3).
           split; [exact H3|].
           split; [rewrite !adds_app, Ha1, Ha2, Ha3; cbn; lia|]. auto.
      * exists (after_call o w1), (evs1 ++ [o]).
        cbn [history after_call fallback_file]. rewrite Hh1.
        split; [now rewrite <- !app_assoc|].
        split; [rewrite adds_app, Ha1; cbn; lia|].
        split; [exact Hff1|]. right.
        exact (add_fails_unmatched env texts metadatas p w d w1 e Hopen Hf Hm).
    + exists (after_call OpPersist (after_call o w1)), (evs1 ++ [o; OpPersist]).
      cbn [history after_call fallback_file]. rewrite Hh1.
      split; [now rewrite <- !app_assoc|].
      split; [rewrite adds_app, Ha1; cbn; lia|].
      split; [exact Hff1|]. left.
      exact (add_succeeds env texts metadatas p w d w1 Hopen Hf).
  - exists w1, evs1. split; [exact Hh1|]. split; [lia|]. split; [exact Hff1|].
    right. exact (add_no_handle env texts metadatas p w w1 Hopen).
Qed.

(** When the store opens and takes the texts, the fallback file is not
    touched and the call returns -- also when the persist that follows
    fails, for that failure is swallowed. *)
Theorem add_success_skips_fallback (texts : list string)
        (metadatas : option (list json)) (p : string) (w : World)
        (db : Db) (w1 : World) :
  get_chroma_db env p w = (Ret (Some db, get_embedding_function env), w1) →
  fault env (history w1) (add_call texts metadatas) = None →
  ∃ w',
    add_documents_to_chroma env texts metadatas p w = (Ret tt, w')
    ∧ new_calls w1 w' = [add_call texts metadatas; OpPersist]
    ∧ fallback_file w' = fallback_file w
    ∧ dirs w' = dirs w1.
Proof.
  intros Hopen Hf.
  destruct (get_chroma_db_spec env p w) as (db' & w1' & evs & Hopen' & _ & _ & Hff).
  rewrite Hopen in Hopen'. injection Hopen' as _ <-.
  eexists. split; [exact (add_succeeds env texts metadatas p w db w1 Hopen Hf)|].
  cbn. split; [|auto].
  apply new_calls_app. cbn. now rewrite <- app_assoc.
Qed.

(** No failure of the vector store leaves [add_documents_to_chroma]: an
    exception that does come out was raised by the fallback append, on a
    fallback file still as it was at the start. *)
Theorem add_raises_only_from_fallback (texts : list string)
        (metadatas : option (list json)) (p : string) (w w' : World) (e : exn) :
  add_documents_to_chroma env texts metadatas p w = (Raise e, w') →
  ∃ w0,
    fallback_append env (get_embedding_function env) texts metadatas w0
    = (Raise e, w')
    ∧ fallback_file w0 = fallback_file w.
Proof.
  intros Hrun.
  destruct (add_outcomes texts metadatas p w) as (w0 & evs & _ & _ & Hff & [H | H]).
  - rewrite H in Hrun. discriminate.
  - exists w0. split; [congruence | exact Hff].
Qed.

(** However the store behaves, the add is attempted at most twice. *)
Theorem add_attempts_at_most_two (texts : list string)
        (metadatas : option (list json)) (p : string) (w : World) :
  adds (new_calls w (snd (add_documents_to_chroma env texts metadatas p w))) ≤ 2.
Proof.
  destruct (add_outcomes texts metadatas p w) as (w0 & evs & Hh & Ha & _ & [H | H]).
  - rewrite H. cbn [snd]. now rewrite (new_calls_app _ _ _ Hh).
  - rewrite H.
    destruct (fallback_append_emits env (get_embedding_function env) texts metadatas w0)
      as (fe & Hfe & Hfile).
    rewrite (new_calls_app _ _ (evs ++ fe)).
    + rewrite adds_app, (adds_file _ Hfile). lia.
    + rewrite Hfe, Hh, <- app_assoc. reflexivity.
Qed.

End AddingMore.

Lemma add_success_skips_fallback_witness :
  ∃ w',
    add_documents_to_chroma (Scenario.open_fails_once Scenario.dimension_message)
      ["a"] None Scenario.chroma_db Scenario.opened
    = (Ret tt, w')
    ∧ fallback_file w' = fallback_file Scenario.opened.
Proof.
  destruct (add_success_skips_fallback
              (Scenario.open_fails_once Scenario.dimension_message)
              ["a"] None Scenario.chroma_db Scenario.opened
              (mkDb (Build_EmbeddingAdapter
                       (get_embedding_function
                          (Scenario.open_fails_once Scenario.dimension_message)))
                    Scenario.chroma_db)
              (after_call (OpChroma Scenario.chroma_db (Some ["chroma.sqlite3"]))
                          Scenario.opened))
    as (w' & Hrun & _ & Hfile & _).
  - reflexivity.
  - reflexivity.
  - exists w'. auto.
Defined.

(** ** Appending: what goes wrong, and what is kept *)

Section AppendingMore.

Context (env : Env).

Lemma append_records_short (metadatas : option (list json)) (embs : list vector)
      (texts : list string) :
  ∀ (items : list json) (k : nat),
    k ≤ length embs →
    length embs < k + length texts →
    append_records (JArr items) k texts metadatas embs
    = Raise (Exn IndexError "list index out of range").
Proof.
  induction texts as [|t rest IH]; intros items k Hk Hlt; cbn [length] in Hlt.
  - lia.
  - cbn [append_records]. unfold py_index.
    destruct (embs !! k) as [e|] eqn:He; [|reflexivity].
    cbn [result_bind]. apply IH.
    + apply lookup_lt_Some in He. lia.
    + lia.
Qed.

Lemma append_records_non_list (v : json) (t : string) (rest : list string)
      (metadatas : option (list json)) (embs : list vector) :
  (∀ l, v ≠ JArr l) →
  append_records v 0 (t :: rest) metadatas embs
  = Raise (Exn AttributeError "object has no attribute 'append'").
Proof. intros H. destruct v; try reflexivity. now destruct (H items). Qed.


(** When the embedding function raises, the append raises the same
    exception before anything is written: the fallback file is as it was. *)
Theorem append_embedding_failure (fn : embedding_function) (texts : list string)
        (metadatas : option (list json)) (w : World) (e : exn) :
  fn texts = Raise e →
  file_reliable env →
  ∃ w',
    fallback_append env fn texts metadatas w = (Raise e, w')
    ∧ fallback_file w' = fallback_file w
    ∧ new_calls w w' = load_calls (fallback_file w).
Proof.
  intros Hfn Hr.
  destruct (load_run env w Hr) as (w1 & Hrun & Hf1 & _ & Hh1).
  exists w1. unfold fallback_append.
  rewrite (bind_ret_run _ _ _ _ _ Hrun).
  rewrite (bind_raise_run _ _ w1 w1 e) by (unfold lift; now rewrite Hfn).
  split; [reflexivity|]. split; [exact Hf1|].
  apply new_calls_app. exact Hh1.
Qed.

(** When the embedding function returns fewer vectors than there are
    texts, the append raises IndexError; no record of the batch is written,
    not even those that had a vector. *)
Theorem append_too_few_embeddings (fn : embedding_function) (texts : list string)
        (metadatas : option (list json)) (w : World)
        (items : list json) (embs : list vector) :
  loaded (fallback_file w) = JArr items →
  fn texts = Ret embs →
  length embs < length texts →
  file_reliable env →
  ∃ w',
    fallback_append env fn texts metadatas w
    = (Raise (Exn IndexError "list index out of range"), w')
    ∧ fallback_file w' = fallback_file w
    ∧ new_calls w w' = load_calls (fallback_file w).
Proof.
  intros Hl Hfn Hlen Hr.
  destruct (load_run env w Hr) as (w1 & Hrun & Hf1 & _ & Hh1).
  exists w1. unfold fallback_append.
  rewrite (bind_ret_run _ _ _ _ _ Hrun), Hl.
  rewrite (bind_ret_run _ _ w1 w1 embs) by (unfold lift; now rewrite Hfn).
  rewrite (bind_raise_run _ _ w1 w1 (Exn IndexError "list index out of range"))
    by (unfold lift; rewrite append_records_short by lia; reflexivity).
  split; [reflexivity|]. split; [exact Hf1|].
  apply new_calls_app. exact Hh1.
Qed.

(** A fallback file that holds valid JSON other than a list is not
    recovered from: appending at least one text raises AttributeError and
    leaves the file as it was. *)
Theorem append_non_list_file (fn : embedding_function) (texts : list string)
        (metadatas : option (list json)) (w : World)
        (v : json) (embs : list vector) :
  fallback_file w = Some (Parsed v) →
  (∀ l, v ≠ JArr l) →
  texts ≠ [] →
  fn texts = Ret embs →
  file_reliable env →
  ∃ w' e,
    fallback_append env fn texts metadatas w = (Raise e, w')
    ∧ exn_cls e = AttributeError
    ∧ fallback_file w' = fallback_file w.
Proof.
  intros Hc Hv Ht Hfn Hr.
  destruct (load_run env w Hr) as (w1 & Hrun & Hf1 & _ & _).
  rewrite Hc in Hrun. cbn [loaded] in Hrun.
  destruct texts as [|t rest]; [contradiction|].
  exists w1, (Exn AttributeError "object has no attribute 'append'").
  unfold fallback_append.
  rewrite (bind_ret_run _ _ _ _ _ Hrun).
  rewrite (bind_ret_run _ _ w1 w1 embs) by (unfold lift; now rewrite Hfn).
  rewrite (bind_raise_run _ _ w1 w1
             (Exn AttributeError "object has no attribute 'append'"))
    by (unfold lift; now rewrite append_records_non_list).
  split; [reflexivity | split; [reflexivity | exact Hf1]].
Qed.

Lemma doc_id_inj (a b : nat) :
  "doc-" +:+ PyStr.of_nat a = "doc-" +:+ PyStr.of_nat b → a = b.
Proof.
  rewrite !append_cons, !append_nil. intros H. injection H as H.
  unfold PyStr.of_nat in H. now apply (inj pretty) in H.
Qed.

Lemma well_numbered_NoDup (items : list json) :
  well_numbered items → NoDup (map record_id items).
Proof.
  intros Hw. apply NoDup_alt. intros i j x Hi Hj.
  rewrite lookup_map in Hi, Hj.
  destruct (items !! i) as [di|] eqn:Edi; [|discriminate].
  destruct (items !! j) as [dj|] eqn:Edj; [|discriminate].
  cbn in Hi, Hj. rewrite (Hw _ _ Edi) in Hi. rewrite (Hw _ _ Edj) in Hj.
  rewrite <- Hj in Hi.
  apply (f_equal (λ o, match o with
                       | Some (Some (JStr s)) => s
                       | _ => EmptyString
                       end)) in Hi.
  cbv beta iota in Hi. apply doc_id_inj in Hi. lia.
Qed.

Lemma well_numbered_app (items : list json) (texts : list string)
      (metadatas : option (list json)) (embs : list vector) :
  well_numbered items →
  well_numbered (items ++ new_records (length items) texts metadatas embs).
Proof.
  intros Hw i d Hd. apply lookup_app_Some in Hd as [Hd | [Hge Hd]].
  - now apply Hw.
  - unfold new_records in Hd. rewrite list_lookup_imap in Hd.
    destruct (texts !! (i - length items)) as [t|]; [|discriminate].
    cbn in Hd. injection Hd as <-.
    change (Some (JStr ("doc-" +:+ PyStr.of_nat (length items + (i - length items) + 1)))
            = Some (JStr ("doc-" +:+ PyStr.of_nat (i + 1)))).
    now replace (length items + (i - length items)) with i by lia.
Qed.

(** The append keeps the numbering of the file: when the stored records
    are numbered by position (as in every file the append itself built),
    so are the records afterwards, and no two have the same id. *)
Theorem append_keeps_numbering (fn : embedding_function) (texts : list string)
        (metadatas : option (list json)) (w : World)
        (items : list json) (embs : list vector) :
  stored (fallback_file w) = Some items →
  well_numbered items →
  fn texts = Ret embs →
  length texts ≤ length embs →
  file_reliable env →
  ∃ w' items',
    fallback_append env fn texts metadatas w = (Ret tt, w')
    ∧ fallback_file w' = Some (Parsed (JArr items'))
    ∧ well_numbered items'
    ∧ NoDup (map record_id items').
Proof.
  intros Hs Hw Hfn Hlen Hr. apply stored_loaded in Hs.
  destruct (fallback_append_run env fn texts metadatas w items embs Hs Hfn Hlen Hr)
    as (w' & Hrun & Hfile & _).
  exists w', (items ++ new_records (length items) texts metadatas embs).
  split; [exact Hrun|]. split; [exact Hfile|].
  pose proof (well_numbered_app items texts metadatas embs Hw) as Hw'.
  split; [exact Hw' | now apply well_numbered_NoDup].
Qed.

End AppendingMore.

Lemma append_embedding_failure_witness :
  ∃ w',
    fallback_append Scenario.offline Cases.refusing ["a"] None Cases.two_docs
    = (Raise (Exn OtherError "rate limit exceeded"), w')
    ∧ fallback_file w' = fallback_file Cases.two_docs
    ∧ new_calls Cases.two_docs w' = [OpReadText].
Proof.
  apply (append_embedding_failure Scenario.offline Cases.refusing ["a"] None
           Cases.two_docs (Exn OtherError "rate limit exceeded")).
  - reflexivity.
  - exact offline_file_reliable.
Defined.

Lemma append_too_few_embeddings_witness :
  ∃ w',
    fallback_append Scenario.offline Cases.silent ["a"] None Scenario.fresh
    = (Raise (Exn IndexError "list index out of range"), w')
    ∧ fallback_file w' = fallback_file Scenario.fresh
    ∧ new_calls Scenario.fresh w' = [].
Proof.
  apply (append_too_few_embeddings Scenario.offline Cases.silent ["a"] None
           Scenario.fresh [] []).
  - reflexivity.
  - reflexivity.
  - cbn. lia.
  - exact offline_file_reliable.
Defined.

Lemma append_non_list_file_witness :
  ∃ w' e,
    fallback_append Scenario.offline Scenario.stub ["a"] None Cases.not_a_list
    = (Raise e, w')
    ∧ exn_cls e = AttributeError
    ∧ fallback_file w' = fallback_file Cases.not_a_list.
Proof.
  apply (append_non_list_file Scenario.offline Scenario.stub ["a"] None
           Cases.not_a_list (JObj []) (_fake_embed ["a"])).
  - reflexivity.
  - discriminate.
  - discriminate.
  - reflexivity.
  - exact offline_file_reliable.
Defined.

Lemma two_docs_numbered :
  well_numbered (new_records 0 ["the cat sat"; "a dog ran"] None
                   (_fake_embed ["the cat sat"; "a dog ran"])).
Proof.
  intros i d Hd. destruct i as [|[|i]]; cbn in Hd; try discriminate;
    injection Hd as <-; reflexivity.
Defined.

Lemma append_keeps_numbering_witness :
  ∃ w' items',
    fallback_append Scenario.offline Scenario.stub ["c"] None Cases.two_docs
    = (Ret tt, w')
    ∧ fallback_file w' = Some (Parsed (JArr items'))
    ∧ well_numbered items'
    ∧ NoDup (map record_id items').
Proof.
  apply (append_keeps_numbering Scenario.offline Scenario.stub ["c"] None
           Cases.two_docs
           (new_records 0 ["the cat sat"; "a dog ran"] None
              (_fake_embed ["the cat sat"; "a dog ran"]))
           (_fake_embed ["c"])).
  - reflexivity.
  - exact two_docs_numbered.
  - reflexivity.
  - cbn. lia.
  - exact offline_file_reliable.
Defined.

Lemma add_raises_only_from_fallback_witness :
  ∃ w0,
    fallback_append Scenario.offline (get_embedding_function Scenario.offline)
      ["a"] None w0
    = (Raise (Exn AttributeError "object has no attribute 'append'"),
       after_call OpReadText Cases.not_a_list)
    ∧ fallback_file w0 = fallback_file Cases.not_a_list.
Proof.
  apply (add_raises_only_from_fallback Scenario.offline ["a"] None
           Scenario.chroma_db Cases.not_a_list).
  reflexivity.
Defined.

(** ** Searching: dispatch, frame and edge cases *)

Section SearchingMore.

Context (env : Env).

Lemma ranking_spec (query : string) (ds : list json) :
  ranking query ds ≡ₚ ds
  ∧ StronglySorted (λ a b, record_overlap query b ≤ record_overlap query a)
                   (ranking query ds)
  ∧ ∀ s, filter (λ d, record_overlap query d = s) (ranking query ds)
         = filter (λ d, record_overlap query d = s) ds.
Proof.
  unfold ranking.
  set (scored := map (λ d, (record_overlap query d, d)) ds).
  pose proof (keyed_map (record_overlap query) ds) as Hkey. fold scored in Hkey.
  split; [|split].
  - rewrite sort_desc_perm. unfold scored. now rewrite map_snd_keyed.
  - apply keyed_sorted; [now apply keyed_perm | apply sort_desc_sorted].
  - intros s. rewrite (keyed_filter (record_overlap query)) by now apply keyed_perm.
    rewrite sort_desc_filter.
    rewrite <- (keyed_filter (record_overlap query)) by exact Hkey.
    unfold scored. now rewrite map_snd_keyed.
Qed.

Lemma ranking_length (query : string) (ds : list json) :
  length (ranking query ds) = length ds.
Proof. apply Permutation_length, ranking_spec. Qed.

Lemma map_py_slice_to {A B} (f : A → B) (k : Z) (l : list A) :
  map f (py_slice_to k l) = py_slice_to k (map f l).
Proof.
  unfold py_slice_to. rewrite length_map.
  destruct (0 <=? k)%Z; now rewrite firstn_map.
Qed.

(** The search of a well-formed fallback file, in terms of the ranking. *)
Lemma fallback_search_ranked (query : string) (k : Z) (w : World) (ds : list json) :
  file_reliable env →
  fallback_file w = Some (Parsed (JArr ds)) →
  Forall (λ d, is_Some (record_text d)) ds →
  fallback_search env query k w
  = (Ret (py_slice_to k (ranking query ds)), after_call OpReadText w).
Proof.
  intros Hr Hc Hds. rewrite (fallback_search_run env query k w ds Hr Hc Hds).
  now rewrite map_py_slice_to.
Qed.

Lemma search_no_handle (query : string) (k : Z) (p : string) (w w1 : World) :
  get_chroma_db env p w = (Ret (None, get_embedding_function env), w1) →
  search_chroma env query k p w = fallback_search env query k w1.
Proof.
  intros Hopen. unfold search_chroma.
  rewrite (bind_ret_run _ _ _ _ _ Hopen). reflexivity.
Qed.

Lemma search_with_handle (query : string) (k : Z) (p : string) (w : World)
        (db : Db) (w1 : World) :
  get_chroma_db env p w = (Ret (Some db, get_embedding_function env), w1) →
  search_chroma env query k p w
  = match fault env (history w1) (OpSimilaritySearch query k) with
    | None => (Ret (similar env (history w1) query k),
               after_call (OpSimilaritySearch query k) w1)
    | Some _ => fallback_search env query k
                  (after_call (OpSimilaritySearch query k) w1)
    end.
Proof.
  intros Hopen. unfold search_chroma.
  rewrite (bind_ret_run _ _ _ _ _ Hopen). cbn [fst].
  unfold bind at 1. unfold try_except, similarity_search, bind, gets.
  rewrite call_run.
  now destruct (fault env (history w1) (OpSimilaritySearch query k)).
Qed.

(** With a handle, the search of the vector store decides: what it returns
    is the answer, an empty list included, and the fallback file is not
    read; only when it raises is the fallback file searched, and that
    failure itself is not raised.  Without a handle the fallback file is
    searched at once and the vector store is not asked. *)
Theorem search_dispatch (query : string) (k : Z) (p : string) (w : World)
        (db : option Db) (w1 : World) :
  get_chroma_db env p w = (Ret (db, get_embedding_function env), w1) →
  search_chroma env query k p w
  = match db with
    | Some _ =>
        match fault env (history w1) (OpSimilaritySearch query k) with
        | None => (Ret (similar env (history w1) query k),
                   after_call (OpSimilaritySearch query k) w1)
        | Some _ => fallback_search env query k
                      (after_call (OpSimilaritySearch query k) w1)
        end
    | None => fallback_search env query k w1
    end.
Proof.
  intros Hopen. destruct db as [d|].
  - now apply (search_with_handle query k p w d).
  - now apply search_no_handle.
Qed.

Lemma keeps_ret {A} (a : A) : keeps_file (ret a).
Proof. now intros w. Qed.

Lemma keeps_lift {A} (r : result A) : keeps_file (lift r).
Proof. now intros w. Qed.

Lemma keeps_raise {A} (e : exn) : keeps_file (@raise A e).
Proof. now intros w. Qed.

Lemma keeps_gets {A} (f : World → A) : keeps_file (gets f).
Proof. now intros w. Qed.

Lemma keeps_call (o : op) : keeps_file (call env o).
Proof. intros w. now rewrite call_run. Qed.

Lemma keeps_bind {A B} (m : M A) (k : A → M B) :
  keeps_file m → (∀ a, keeps_file (k a)) → keeps_file (bind m k).
Proof.
  intros Hm Hk w. unfold bind. specialize (Hm w).
  destruct (m w) as [[a|e] w1]; cbn in Hm; [|exact Hm].
  now rewrite Hk.
Qed.

Lemma keeps_try {A} (m : M A) (h : exn → M A) :
  keeps_file m → (∀ e, keeps_file (h e)) → keeps_file (try_except m h).
Proof.
  intros Hm Hh w. unfold try_except. specialize (Hm w).
  destruct (m w) as [[a|e] w1]; cbn in Hm; [exact Hm|].
  now rewrite Hh.
Qed.

Lemma keeps_open (p : string) : keeps_file (get_chroma_db env p).
Proof.
  intros w. destruct (get_chroma_db_spec env p w) as (db & w' & evs & -> & _ & _ & H).
  exact H.
Qed.

Lemma keeps_fallback_search (query : string) (k : Z) :
  keeps_file (fallback_search env query k).
Proof.
  unfold fallback_search.
  apply keeps_bind; [apply keeps_gets|intros [|]; cbn [negb]; [|apply keeps_ret]].
  apply keeps_bind; [|intros c].
  { unfold read_text. apply keeps_bind; [apply keeps_call|intros _].
    apply keeps_bind; [apply keeps_gets|].
    intros [c|]; [apply keeps_ret | apply keeps_raise]. }
  apply keeps_bind; [apply keeps_lift|intros data].
  apply keeps_bind; [apply keeps_lift|intros ds].
  apply keeps_bind; [apply keeps_lift|intros scored].
  apply keeps_ret.
Qed.

(** A search never changes the fallback file, whatever the vector store,
    the file system and the file itself are like. *)
Theorem search_keeps_file (query : string) (k : Z) (p : string) (w : World) :
  fallback_file (snd (search_chroma env query k p w)) = fallback_file w.
Proof.
  revert w. change (keeps_file (search_chroma env query k p)).
  unfold search_chroma.
  apply keeps_bind; [apply keeps_open|intros [db fn]]. cbn [fst].
  apply keeps_bind.
  - destruct db as [d|]; [|apply keeps_ret].
    apply keeps_try; [|intros _; apply keeps_ret].
    apply keeps_bind; [|intros r; apply keeps_ret].
    unfold similarity_search.
    apply keeps_bind; [apply keeps_gets|intros h].
    apply keeps_bind; [apply keeps_call|intros _; apply keeps_ret].
  - intros [r|]; [apply keeps_ret | apply keeps_fallback_search].
Qed.

(** No failure of the vector store leaves [search_chroma]: an exception
    that does come out was raised by the search of the fallback file. *)
Theorem search_raises_only_from_fallback (query : string) (k : Z) (p : string)
        (w w' : World) (e : exn) :
  search_chroma env query k p w = (Raise e, w') →
  ∃ w0, fallback_search env query k w0 = (Raise e, w').
Proof.
  intros Hrun.
  destruct (get_chroma_db_spec env p w) as (db & w1 & evs & Hopen & _).
  destruct db as [d|].
  - rewrite (search_with_handle query k p w d w1 Hopen) in Hrun.
    destruct (fault env (history w1) (OpSimilaritySearch query k)).
    + eauto.
    + discriminate.
  - rewrite (search_no_handle query k p w w1 Hopen) in Hrun. eauto.
Qed.

(** A negative [k] does not give an empty answer: the slice [scored[:k]]
    returns the ranking without its last [-k] records. *)
Theorem search_negative_k (query : string) (k : Z) (w : World) (ds : list json) :
  file_reliable env →
  fallback_file w = Some (Parsed (JArr ds)) →
  Forall (λ d, is_Some (record_text d)) ds →
  (k < 0)%Z →
  fallback_search env query k w
  = (Ret (take (length ds - Z.to_nat (- k)) (ranking query ds)),
     after_call OpReadText w).
Proof.
  intros Hr Hc Hds Hk. rewrite (fallback_search_ranked query k w ds Hr Hc Hds).
  unfold py_slice_to. rewrite (proj2 (Z.leb_gt 0 k)) by lia.
  rewrite ranking_length. do 3 f_equal. lia.
Qed.

(** For [k >= 0] the search returns [min k n] of the [n] stored records,
    and none of the records left out has a higher overlap than any of
    those returned. *)
Theorem search_returns_best (query : string) (k : Z) (w : World) (ds : list json) :
  file_reliable env →
  fallback_file w = Some (Parsed (JArr ds)) →
  Forall (λ d, is_Some (record_text d)) ds →
  (0 ≤ k)%Z →
  ∃ hits rest w',
    fallback_search env query k w = (Ret hits, w')
    ∧ hits ++ rest ≡ₚ ds
    ∧ length hits = min (Z.to_nat k) (length ds)
    ∧ ∀ a b, a ∈ hits → b ∈ rest →
             record_overlap query b ≤ record_overlap query a.
Proof.
  intros Hr Hc Hds Hk.
  destruct (ranking_spec query ds) as (Hperm & Hsorted & _).
  exists (take (Z.to_nat k) (ranking query ds)),
         (drop (Z.to_nat k) (ranking query ds)), (after_call OpReadText w).
  split; [|split; [|split]].
  - rewrite (fallback_search_ranked query k w ds Hr Hc Hds).
    now rewrite py_slice_to_nonneg.
  - now rewrite take_drop.
  - now rewrite length_take, ranking_length.
  - intros a b Ha Hb. rewrite <- (take_drop (Z.to_nat k)) in Hsorted.
    exact (StronglySorted_app_1_elem_of _ _ _ a b Hsorted Ha Hb).
Qed.

Lemma filter_all {A} (P : A → Prop) `{!∀ x, Decision (P x)} (l : list A) :
  Forall P l → filter P l = l.
Proof.
  induction 1 as [|x l Hx _ IH]; [reflexivity|].
  now rewrite filter_cons_True, IH.
Qed.

(** A query without a word scores every record zero, and the stable sort
    then leaves the records in stored order: the answer is the first [k]
    records of the file. *)
Theorem search_blank_query (query : string) (k : Z) (w : World) (ds : list json) :
  PyStr.split (PyStr.lower query) = [] →
  file_reliable env →
  fallback_file w = Some (Parsed (JArr ds)) →
  Forall (λ d, is_Some (record_text d)) ds →
  (0 ≤ k)%Z →
  fallback_search env query k w
  = (Ret (take (Z.to_nat k) ds), after_call OpReadText w).
Proof.
  intros Hq Hr Hc Hds Hk.
  rewrite (fallback_search_ranked query k w ds Hr Hc Hds).
  rewrite py_slice_to_nonneg by exact Hk. do 3 f_equal.
  assert (Hz : ∀ d, record_overlap query d = 0).
  { intros d. unfold record_overlap, token_overlap. now rewrite Hq. }
  destruct (ranking_spec query ds) as (_ & _ & Hst).
  specialize (Hst 0).
  rewrite !filter_all in Hst by (apply Forall_forall; intros; apply Hz).
  exact Hst.
Qed.

Lemma lower_char_idem (c : ascii) :
  PyStr.lower_char (PyStr.lower_char c) = PyStr.lower_char c.
Proof. destruct c as [[] [] [] [] [] [] [] []]; reflexivity. Qed.

Lemma lower_idem (s : string) : PyStr.lower (PyStr.lower s) = PyStr.lower s.
Proof.
  induction s as [|c s IH]; [reflexivity|].
  cbn [PyStr.lower]. now rewrite lower_char_idem, IH.
Qed.

(** The search ignores the case of the query: lowering the query first
    changes neither the scores nor the answer. *)
Theorem search_ignores_query_case (query : string) (k : Z) (w : World) :
  fallback_search env (PyStr.lower query) k w = fallback_search env query k w
  ∧ ∀ d, record_overlap (PyStr.lower query) d = record_overlap query d.
Proof.
  split.
  - unfold fallback_search, tokens. now rewrite lower_idem.
  - intros d. unfold record_overlap, token_overlap. now rewrite lower_idem.
Qed.

Lemma new_records_rankable (n : nat) (texts : list string)
      (metadatas : option (list json)) (embs : list vector) :
  Forall (λ d, is_Some (record_text d)) (new_records n texts metadatas embs).
Proof.
  apply Forall_forall. intros d Hd.
  apply list_elem_of_lookup in Hd as [i Hd].
  unfold new_records in Hd. rewrite list_lookup_imap in Hd.
  destruct (texts !! i) as [t|]; [|discriminate].
  cbn in Hd. injection Hd as <-. now exists t.
Qed.

(** What has just been appended is searched with the rest: after an
    append, the search ranks the old and the new records together, each
    new record by the overlap of the query with its text. *)
Theorem append_then_search (fn : embedding_function) (texts : list string)
        (metadatas : option (list json)) (w : World)
        (items : list json) (embs : list vector) (query : string) (k : Z) :
  stored (fallback_file w) = Some items →
  Forall (λ d, is_Some (record_text d)) items →
  fn texts = Ret embs →
  length texts ≤ length embs →
  file_reliable env →
  (0 ≤ k)%Z →
  ∃ w1 new,
    fallback_append env fn texts metadatas w = (Ret tt, w1)
    ∧ fallback_search env query k w1
      = (Ret (take (Z.to_nat k) (ranking query (items ++ new))),
         after_call OpReadText w1)
    ∧ length new = length texts
    ∧ ∀ i t d, texts !! i = Some t → new !! i = Some d →
               record_overlap query d = token_overlap query t.
Proof.
  intros Hs Hit Hfn Hlen Hr Hk. apply stored_loaded in Hs.
  destruct (fallback_append_run env fn texts metadatas w items embs Hs Hfn Hlen Hr)
    as (w1 & Hrun & Hfile & _).
  exists w1, (new_records (length items) texts metadatas embs).
  split; [exact Hrun|]. split; [|split].
  - rewrite (fallback_search_ranked query k w1 _ Hr Hfile).
    + now rewrite py_slice_to_nonneg.
    + apply Forall_app. split; [exact Hit | apply new_records_rankable].
  - apply new_records_length.
  - intros i t d Ht Hd. rewrite (new_records_lookup _ _ _ _ _ _ Ht) in Hd.
    injection Hd as <-. reflexivity.
Qed.

End SearchingMore.

(** ** Normalising hits and answering a query *)

Section Answering.

Context (env : Env).

(** The search with the kinds kept is the search, kinds forgotten. *)
Lemma search_tagged_erase (query : string) (k : Z) (p : string) (w : World) :
  search_chroma env query k p w
  = match search_chroma_tagged env query k p w with
    | (Ret docs, w') => (Ret (map erase docs), w')
    | (Raise e, w') => (Raise e, w')
    end.
Proof.
  unfold search_chroma, search_chroma_tagged, bind.
  destruct (get_chroma_db env p w) as [[[db fn]|e] w1]; [|reflexivity].
  cbn [fst]. destruct db as [d|].
  - unfold try_except, bind.
    destruct (similarity_search env d query k w1) as [[r|e] w2].
    + unfold ret. rewrite map_map. cbn. now rewrite map_id.
    + unfold ret. destruct (fallback_search env query k w2) as [[r|e'] w3];
        [|reflexivity].
      rewrite map_map. cbn. now rewrite map_id.
  - unfold ret. destruct (fallback_search env query k w1) as [[r|e'] w3];
      [|reflexivity].
    rewrite map_map. cbn. now rewrite map_id.
Qed.

Lemma normalize_plain (j : json) : normalize_doc (Plain j) = blank_hit.
Proof. reflexivity. Qed.

Lemma normalize_plain_all (records : list json) :
  _normalize_docs (map Plain records) = map (λ _, blank_hit) records.
Proof.
  unfold _normalize_docs. rewrite map_map. apply map_ext. intros j.
  apply normalize_plain.
Qed.

Lemma build_context_blank {A} (l : list A) :
  build_context (map (λ _, blank_hit) l) = Ret EmptyString.
Proof.
  unfold build_context. rewrite map_map.
  induction l as [|x l IH]; [reflexivity|]. cbn. exact IH.
Qed.

(** A hit from the fallback file is a dict, and a dict has none of the
    attributes [_normalize_docs] asks for: every such hit comes out with
    text [None] and empty metadata, whatever the record held, and the
    context built from such hits is the empty string. *)
Theorem normalize_fallback_hits_blank (records : list json) :
  _normalize_docs (map Plain records) = map (λ _, blank_hit) records
  ∧ build_context (_normalize_docs (map Plain records)) = Ret EmptyString.
Proof.
  split; [apply normalize_plain_all|].
  rewrite normalize_plain_all. apply build_context_blank.
Qed.

Lemma tagged_no_handle (query : string) (k : Z) (p : string) (w w1 : World) :
  get_chroma_db env p w = (Ret (None, get_embedding_function env), w1) →
  search_chroma_tagged env query k p w
  = bind (fallback_search env query k) (λ r, ret (map Plain r)) w1.
Proof.
  intros Hopen. unfold search_chroma_tagged.
  rewrite (bind_ret_run _ _ _ _ _ Hopen). reflexivity.
Qed.

(** Served by the fallback file, [run_query] answers blind: the prompt it
    hands to the model has an empty context, and every source it reports
    has text [None] and no metadata. *)
Theorem run_query_fallback_blind (llm : string → result json) (query : string)
        (k : Z) (w : World) (ds : list json) :
  Chroma_imported env = false →
  file_reliable env →
  fallback_file w = Some (Parsed (JArr ds)) →
  Forall (λ d, is_Some (record_text d)) ds →
  (0 ≤ k)%Z →
  run_query env llm query k w
  = (Ret (JObj [("result",
                 match llm (build_prompt EmptyString query) with
                 | Ret answer => answer
                 | Raise e => JStr ("[LLM_ERROR] " +:+ exn_msg e)
                 end);
                ("source_documents",
                 JArr (replicate (min (Z.to_nat k) (length ds)) blank_hit))]),
     after_call OpReadText w).
Proof.
  intros Hi Hr Hc Hds Hk. unfold run_query.
  assert (Hs : search_chroma_tagged env query k CHROMA_DB_DIR w
               = (Ret (map Plain (take (Z.to_nat k) (ranking query ds))),
                  after_call OpReadText w)).
  { rewrite (tagged_no_handle query k _ w w) by now apply open_unavailable.
    unfold bind. rewrite (fallback_search_ranked env query k w ds Hr Hc Hds).
    now rewrite py_slice_to_nonneg. }
  rewrite (bind_ret_run _ _ _ _ _ Hs). cbv zeta.
  rewrite normalize_plain_all.
  rewrite (bind_ret_run _ _ _ (after_call OpReadText w) EmptyString)
    by (unfold lift; now rewrite build_context_blank).
  assert (Hrep : map (λ _ : json, blank_hit) (take (Z.to_nat k) (ranking query ds))
                 = replicate (min (Z.to_nat k) (length ds)) blank_hit).
  { rewrite <- (ranking_length query ds), <- length_take.
    generalize (take (Z.to_nat k) (ranking query ds)).
    intros l. induction l as [|x l IH]; cbn; [reflexivity | now rewrite IH]. }
  rewrite Hrep. unfold bind, try_except, lift, ret.
  now destruct (llm (build_prompt EmptyString query)).
Qed.

(** A failure of the model is not raised by [run_query]: the answer is the
    message of the failure behind the tag [[LLM_ERROR]], and the sources
    are reported all the same. *)
Theorem run_query_llm_failure_tagged (llm : string → result json)
        (query : string) (k : Z) (w w1 : World) (docs : list pydoc)
        (context : string) (e : exn) :
  search_chroma_tagged env query k CHROMA_DB_DIR w = (Ret docs, w1) →
  build_context (_normalize_docs docs) = Ret context →
  llm (build_prompt context query) = Raise e →
  run_query env llm query k w
  = (Ret (JObj [("result", JStr ("[LLM_ERROR] " +:+ exn_msg e));
                ("source_documents", JArr (_normalize_docs docs))]),
     w1).
Proof.
  intros Hs Hc Hl. unfold run_query.
  rewrite (bind_ret_run _ _ _ _ _ Hs). cbv zeta.
  rewrite (bind_ret_run _ _ w1 w1 context) by (unfold lift; now rewrite Hc).
  unfold bind, try_except, lift, ret. now rewrite Hl.
Qed.

(** A failure of the fallback search is raised by [run_query]: with no
    vector store and an unparsable fallback file the query ends in the
    parse error that [search_chroma] raises, before the model is asked
    anything -- whatever the model is. *)
Theorem run_query_corrupt_file_raises (llm : string → result json)
        (query : string) (k : Z) (w : World) :
  Chroma_imported env = false →
  file_reliable env →
  fallback_file w = Some Unparsable →
  ∃ e,
    run_query env llm query k w = (Raise e, after_call OpReadText w)
    ∧ exn_cls e = JSONDecodeError
    ∧ search_chroma env query k CHROMA_DB_DIR w
      = (Raise e, after_call OpReadText w).
Proof.
  intros Hi Hr Hc. exists (Exn JSONDecodeError "Expecting value").
  split; [|split; [reflexivity|]].
  - unfold run_query.
    rewrite (bind_raise_run _ _ w (after_call OpReadText w)
               (Exn JSONDecodeError "Expecting value")); [reflexivity|].
    rewrite (tagged_no_handle query k _ w w) by now apply open_unavailable.
    unfold bind. now rewrite (fallback_search_corrupt env query k w Hr Hc).
  - rewrite (search_no_handle env query k _ w w) by now apply open_unavailable.
    exact (fallback_search_corrupt env query k w Hr Hc).
Qed.

Lemma join_values_strings (sep : string) (l : list string) :
  join_values sep (map JStr l) = Ret (str_join sep l).
Proof.
  induction l as [|s l IH]; [reflexivity|].
  cbn [map join_values]. rewrite IH. cbn [result_bind].
  destruct l; reflexivity.
Qed.

(** Served by the vector store, [run_query] builds the context from the
    [page_content] of the documents found, in the order found, separated
    by blank lines, and reports each with its metadata. *)
Theorem run_query_vector_context (llm : string → result json) (query : string)
        (k : Z) (w : World) (db : Db) (w1 : World)
        (found : list (string * list (string * json))) :
  get_chroma_db env CHROMA_DB_DIR w
  = (Ret (Some db, get_embedding_function env), w1) →
  fault env (history w1) (OpSimilaritySearch query k) = None →
  similar env (history w1) query k
  = map (λ cm, JObj [("page_content", JStr (fst cm)); ("metadata", JObj (snd cm))])
        found →
  Forall (λ cm, fst cm ≠ EmptyString) found →
  run_query env llm query k w
  = (Ret (JObj [("result",
                 match llm (build_prompt
                              (str_join (String newline (String newline EmptyString))
                                        (map fst found))
                              query) with
                 | Ret answer => answer
                 | Raise e => JStr ("[LLM_ERROR] " +:+ exn_msg e)
                 end);
                ("source_documents",
                 JArr (map (λ cm, JObj [("text", JStr (fst cm));
                                        ("metadata", JObj (snd cm))])
                           found))]),
     after_call (OpSimilaritySearch query k) w1).
Proof.
  intros Hopen Hf Hsim Hne. unfold run_query.
  assert (Hs : search_chroma_tagged env query k CHROMA_DB_DIR w
               = (Ret (map LibObject (similar env (history w1) query k)),
                  after_call (OpSimilaritySearch query k) w1)).
  { unfold search_chroma_tagged.
    rewrite (bind_ret_run _ _ _ _ _ Hopen). cbn [fst].
    unfold bind at 1. unfold try_except, similarity_search, bind, gets.
    now rewrite call_run, Hf. }
  rewrite (bind_ret_run _ _ _ _ _ Hs). cbv zeta. rewrite Hsim.
  assert (Hn : _normalize_docs
                 (map LibObject
                    (map (λ cm : string * list (string * json),
                            JObj [("page_content", JStr (fst cm));
                                  ("metadata", JObj (snd cm))]) found))
               = map (λ cm, JObj [("text", JStr (fst cm));
                                  ("metadata", JObj (snd cm))]) found).
  { unfold _normalize_docs. rewrite !map_map.
    apply map_ext_in. intros [c m] Hin.
    apply list_elem_of_In in Hin. rewrite Forall_forall in Hne.
    specialize (Hne _ Hin). cbn in Hne.
    destruct c as [|a c]; [contradiction|]. destruct m; reflexivity. }
  rewrite Hn.
  assert (Hc : build_context
                 (map (λ cm : string * list (string * json),
                         JObj [("text", JStr (fst cm));
                               ("metadata", JObj (snd cm))]) found)
               = Ret (str_join (String newline (String newline EmptyString))
                               (map fst found))).
  { unfold build_context. rewrite <- join_values_strings. f_equal.
    clear -Hne. induction Hne as [|[c m] l Hc _ IH]; [reflexivity|].
    cbn in Hc. destruct c as [|a c]; [contradiction|].
    cbn [map List.filter hit_text fst snd]. rewrite IH. reflexivity. }
  rewrite (bind_ret_run _ _ _ (after_call (OpSimilaritySearch query k) w1) _)
    by (unfold lift; now rewrite Hc).
  unfold bind, try_except, lift, ret.
  now destruct (llm _).
Qed.

End Answering.

(** ** Words and chunks *)

Section Chunking.

Lemma append_assoc (a b c : string) : (a +:+ b) +:+ c = a +:+ (b +:+ c).
Proof. induction a as [|x a IH]; [reflexivity|]. now rewrite !append_cons, IH. Qed.

Lemma append_nil_r (a : string) : a +:+ EmptyString = a.
Proof. induction a as [|x a IH]; [reflexivity|]. now rewrite append_cons, IH. Qed.

Lemma split_go_word (w : string) :
  ∀ tok rest,
    Forall (λ c, PyStr.isspace c = false) (PyStr.chars w) →
    PyStr.split_go tok (w +:+ rest) = PyStr.split_go (tok +:+ w) rest.
Proof.
  induction w as [|c w IH]; intros tok rest Hw.
  - now rewrite append_nil, append_nil_r.
  - change (PyStr.chars (String c w)) with (c :: PyStr.chars w) in Hw.
    apply Forall_cons in Hw as [Hc Hw].
    rewrite append_cons. cbn [PyStr.split_go]. rewrite Hc.
    rewrite IH by exact Hw. now rewrite append_assoc, append_cons, append_nil.
Qed.

Lemma split_go_end (tok : string) :
  tok ≠ EmptyString → PyStr.split_go tok EmptyString = [tok].
Proof. destruct tok; [contradiction | reflexivity]. Qed.

Lemma split_go_space (tok rest : string) :
  tok ≠ EmptyString →
  PyStr.split_go tok (String " " rest) = tok :: PyStr.split_go EmptyString rest.
Proof. destruct tok; [contradiction | reflexivity]. Qed.

(** Joining words with single spaces and splitting again gives the words
    back. *)
Lemma split_join_words (ws : list string) :
  Forall is_word ws → findall_nonspace (str_join " " ws) = ws.
Proof.
  unfold findall_nonspace, PyStr.split.
  induction 1 as [|w ws [Hne Hw] Hws IH]; [reflexivity|].
  destruct ws as [|w2 r].
  - cbn [str_join]. rewrite <- (append_nil_r w) at 1.
    rewrite split_go_word by exact Hw. rewrite append_nil.
    now apply split_go_end.
  - change (str_join " " (w :: w2 :: r))
      with (w +:+ " " +:+ str_join " " (w2 :: r)).
    rewrite split_go_word by exact Hw. rewrite append_nil.
    rewrite append_cons, append_nil, split_go_space by exact Hne.
    now rewrite IH.
Qed.

Lemma findall_words (text : string) : Forall is_word (findall_nonspace text).
Proof. apply split_words. Qed.

Lemma py_slice_window {A} (l : list A) (i : nat) (size : Z) :
  i < length l → (0 ≤ size)%Z →
  py_slice (Z.of_nat i) (Z.of_nat i + size) l = take (Z.to_nat size) (drop i l).
Proof.
  intros Hi Hs. unfold py_slice, py_bound.
  rewrite (proj2 (Z.ltb_ge _ 0)) by lia. rewrite (proj2 (Z.ltb_ge _ 0)) by lia.
  replace (Z.to_nat (Z.min (Z.of_nat i) (Z.of_nat (length l)))) with i by lia.
  destruct (decide (i + Z.to_nat size ≤ length l)) as [H|H].
  - f_equal. lia.
  - rewrite !take_ge by (rewrite length_drop; lia). reflexivity.
Qed.

Lemma windows_count (n step j : nat) :
  0 < step → (j * step < n ↔ j < (n + step - 1) / step).
Proof.
  intros Hs.
  pose proof (Nat.div_mod_eq (n + step - 1) step) as Hd.
  pose proof (Nat.mod_upper_bound (n + step - 1) step ltac:(lia)) as Hm.
  split; intros H; nia.
Qed.

Lemma chunk_loop_run (words : list string) (chunk_size overlap : Z) :
  (0 ≤ chunk_size)%Z → (overlap < chunk_size)%Z →
  let step := Z.to_nat (chunk_size - overlap) in
  let n := (length words + step - 1) / step in
  let f := λ j, str_join " " (take (Z.to_nat chunk_size) (drop (j * step) words)) in
  ∀ fuel j chunks,
    j ≤ n → n - j ≤ fuel →
    chunk_loop fuel words chunk_size overlap (Z.of_nat (j * step)) chunks
    = Some (chunks ++ map f (seq j (n - j))).
Proof.
  intros Hcs Hov step n f.
  assert (Hstep : 0 < step) by (unfold step; lia).
  induction fuel as [|fuel IH]; intros j chunks Hj Hfuel.
  - assert (j = n) as -> by lia. cbn [chunk_loop].
    rewrite (proj2 (Z.ltb_ge _ _)).
    + now rewrite Nat.sub_diag, app_nil_r.
    + pose proof (windows_count (length words) step n Hstep). fold n in H. lia.
  - cbn [chunk_loop].
    destruct (decide (j < n)) as [Hlt|Hge].
    + assert (Hi : j * step < length words)
        by (apply (windows_count _ _ _ Hstep); exact Hlt).
      rewrite (proj2 (Z.ltb_lt _ _)) by lia.
      rewrite py_slice_window by (assumption || lia).
      replace (Z.of_nat (j * step) + (chunk_size - overlap))%Z
        with (Z.of_nat (S j * step)) by (unfold step; lia).
      rewrite IH by lia. rewrite <- app_assoc. do 2 f_equal.
      replace (n - j) with (S (n - S j)) by lia. reflexivity.
    + assert (j = n) as -> by lia.
      rewrite (proj2 (Z.ltb_ge _ _)).
      * now rewrite Nat.sub_diag, app_nil_r.
      * pose proof (windows_count (length words) step n Hstep). fold n in H. lia.
Qed.

Lemma chunk_text_run (fuel : nat) (text : string) (chunk_size overlap : Z) :
  (0 ≤ chunk_size)%Z →
  (overlap < chunk_size)%Z →
  length (findall_nonspace text) ≤ fuel →
  chunk_text fuel text chunk_size overlap
  = Some (map (str_join " ")
              (windows (findall_nonspace text) (Z.to_nat chunk_size)
                       (Z.to_nat (chunk_size - overlap)))).
Proof.
  intros Hcs Hov Hfuel. unfold chunk_text, windows. cbv zeta.
  set (words := findall_nonspace text) in *.
  set (step := Z.to_nat (chunk_size - overlap)).
  assert (Hstep : 0 < step) by (unfold step; lia).
  pose proof (chunk_loop_run words chunk_size overlap Hcs Hov fuel 0 []) as H.
  cbv zeta in H. fold step in H. rewrite Nat.sub_0_r in H.
  change (chunk_loop fuel words chunk_size overlap 0 [])
    with (chunk_loop fuel words chunk_size overlap (Z.of_nat (0 * step)) []).
  rewrite H.
  - cbn [app]. now rewrite map_map.
  - lia.
  - pose proof (Nat.div_mod_eq (length words + step - 1) step).
    pose proof (Nat.mod_upper_bound (length words + step - 1) step ltac:(lia)).
    nia.
Qed.

(** With an overlap below the chunk size the loop of [chunk_text] ends,
    within as many rounds as there are words, and the chunks are the
    windows of [chunk_size] words taken every [chunk_size - overlap]
    words, each joined by single spaces: one chunk for every
    [chunk_size - overlap] words, rounded up, and none for a text without
    words. *)
Theorem chunk_text_windows (fuel : nat) (text : string) (chunk_size overlap : Z) :
  (0 ≤ chunk_size)%Z →
  (overlap < chunk_size)%Z →
  length (findall_nonspace text) ≤ fuel →
  ∃ chunks,
    chunk_text fuel text chunk_size overlap = Some chunks
    ∧ chunks = map (str_join " ")
                   (windows (findall_nonspace text) (Z.to_nat chunk_size)
                            (Z.to_nat (chunk_size - overlap)))
    ∧ length chunks
      = (length (findall_nonspace text) + Z.to_nat (chunk_size - overlap) - 1)
        / Z.to_nat (chunk_size - overlap)
    ∧ (findall_nonspace text = [] → chunks = []).
Proof.
  intros Hcs Hov Hfuel. eexists. split; [now apply chunk_text_run|].
  split; [reflexivity|]. split.
  - unfold windows. now rewrite !length_map, length_seq.
  - intros ->. unfold windows. cbn [length Nat.add].
    rewrite Nat.div_small by lia. reflexivity.
Qed.

Lemma chunk_loop_stuck (words : list string) (chunk_size overlap : Z) :
  words ≠ [] → (chunk_size ≤ overlap)%Z →
  ∀ fuel i chunks,
    (i ≤ 0)%Z → chunk_loop fuel words chunk_size overlap i chunks = None.
Proof.
  intros Hw Hs. induction fuel as [|fuel IH]; intros i chunks Hi;
    cbn [chunk_loop];
    (rewrite (proj2 (Z.ltb_lt _ _)) by (destruct words; [contradiction | cbn; lia])).
  - reflexivity.
  - apply IH. lia.
Qed.

(** With an overlap that is not below the chunk size, [chunk_text] does
    not return on any text that has a word: the index never advances, and
    no number of rounds is enough. *)
Theorem chunk_text_never_returns (fuel : nat) (text : string)
        (chunk_size overlap : Z) :
  findall_nonspace text ≠ [] →
  (chunk_size ≤ overlap)%Z →
  chunk_text fuel text chunk_size overlap = None.
Proof.
  intros Hw Hs. unfold chunk_text. cbv zeta.
  now apply chunk_loop_stuck.
Qed.

Lemma concat_windows (words : list string) (size : nat) :
  ∀ n, concat (map (λ j, take size (drop (j * size) words)) (seq 0 n))
       = take (n * size) words.
Proof.
  induction n as [|n IH]; [reflexivity|].
  rewrite seq_S, map_app, concat_app, IH. cbn [map concat Nat.add].
  rewrite app_nil_r, take_take_drop. f_equal. lia.
Qed.

(** Without overlap the chunks cut the text into its words and lose none:
    the words of the chunks, in order, are the words of the text. *)
Theorem chunk_text_partition (fuel : nat) (text : string) (chunk_size : Z) :
  (0 < chunk_size)%Z →
  length (findall_nonspace text) ≤ fuel →
  ∃ chunks,
    chunk_text fuel text chunk_size 0 = Some chunks
    ∧ concat (map findall_nonspace chunks) = findall_nonspace text.
Proof.
  intros Hcs Hfuel. eexists. split.
  - apply chunk_text_run; (assumption || lia).
  - rewrite Z.sub_0_r. unfold windows.
    set (words := findall_nonspace text).
    set (size := Z.to_nat chunk_size).
    assert (Hsize : 0 < size) by (unfold size; lia).
    rewrite !map_map.
    rewrite (map_ext_in _ (λ j, take size (drop (j * size) words))).
    + rewrite concat_windows. apply take_ge.
      pose proof (Nat.div_mod_eq (length words + size - 1) size).
      pose proof (Nat.mod_upper_bound (length words + size - 1) size ltac:(lia)).
      nia.
    + intros j _. apply split_join_words.
      apply Forall_take, Forall_drop, findall_words.
Qed.

(** With an overlap from 0 up to the chunk size no word is skipped: the
    word at position [i] of the text is word [i mod step] of chunk
    [i / step], for [step = chunk_size - overlap]. *)
Theorem chunk_text_covers (fuel : nat) (text : string) (chunk_size overlap : Z)
        (i : nat) (word : string) :
  (0 ≤ overlap)%Z →
  (overlap < chunk_size)%Z →
  length (findall_nonspace text) ≤ fuel →
  findall_nonspace text !! i = Some word →
  ∃ chunks chunk,
    chunk_text fuel text chunk_size overlap = Some chunks
    ∧ chunks !! (i / Z.to_nat (chunk_size - overlap)) = Some chunk
    ∧ findall_nonspace chunk !! (i mod Z.to_nat (chunk_size - overlap)) = Some word.
Proof.
  intros Hov Hcs Hfuel Hi.
  set (words := findall_nonspace text) in *.
  set (step := Z.to_nat (chunk_size - overlap)).
  set (size := Z.to_nat chunk_size).
  assert (Hstep : 0 < step) by (unfold step; lia).
  assert (Hle : step ≤ size) by (unfold step, size; lia).
  pose proof (lookup_lt_Some _ _ _ Hi) as Hlt.
  pose proof (Nat.div_mod_eq i step) as Hdm.
  pose proof (Nat.mod_upper_bound i step ltac:(lia)) as Hm.
  exists (map (str_join " ") (windows words size step)),
         (str_join " " (take size (drop (i / step * step) words))).
  split; [apply chunk_text_run; (assumption || lia)|]. split.
  - unfold windows. rewrite map_map, lookup_map, lookup_seq_lt; [reflexivity|].
    apply (windows_count _ _ _ Hstep). nia.
  - rewrite split_join_words
      by (apply Forall_take, Forall_drop, findall_words).
    rewrite lookup_take_lt by lia. rewrite lookup_drop.
    rewrite <- Hi. f_equal. lia.
Qed.

End Chunking.

(** ** First and last words, and the offline model *)

Section Words.

(** [_first_n_words] and [_last_n_words] return words joined by single
    spaces: the first [n] words of the text, and its last [n] -- except
    that for [n = 0] the slice [words[-0:]] is the whole list, so that
    [_last_n_words] then returns every word and not none. *)
Theorem first_last_n_words (text : string) (n : Z) :
  (0 ≤ n)%Z →
  findall_nonspace (_first_n_words text n)
  = take (Z.to_nat n) (findall_nonspace text)
  ∧ findall_nonspace (_last_n_words text n)
    = (if (n =? 0)%Z then findall_nonspace text
       else drop (length (findall_nonspace text) - Z.to_nat n)
                 (findall_nonspace text)).
Proof.
  intros Hn. unfold _first_n_words, _last_n_words. cbv zeta.
  set (words := findall_nonspace text).
  pose proof (findall_words text) as Hw. fold words in Hw.
  split.
  - rewrite py_slice_to_nonneg by exact Hn.
    apply split_join_words. now apply Forall_take.
  - unfold py_slice_from, py_bound.
    destruct (Z.eqb_spec n 0) as [-> | Hne].
    + change (- 0)%Z with 0%Z. rewrite (proj2 (Z.ltb_ge 0 0)) by lia.
      replace (Z.to_nat (Z.min 0 (Z.of_nat (length words)))) with 0 by lia.
      cbn [drop]. now apply split_join_words.
    + rewrite (proj2 (Z.ltb_lt _ _)) by lia.
      replace (Z.to_nat (Z.max 0 (- n + Z.of_nat (length words))))
        with (length words - Z.to_nat n) by lia.
      apply split_join_words. now apply Forall_drop.
Qed.

Lemma chars_replace_newlines (s : string) :
  PyStr.chars (replace_newlines s)
  = map (λ c, if Ascii.eqb c newline then " "%char else c) (PyStr.chars s).
Proof.
  induction s as [|c s IH]; [reflexivity|].
  cbn [replace_newlines]. unfold PyStr.chars in *. cbn. now rewrite IH.
Qed.

(** The offline model echoes at most the first 400 characters of the
    prompt, on one line: every newline among them is turned into a space. *)
Theorem stub_call_preview (format_float : float → string) (self : _StubLLM)
        (prompt : string) :
  ∃ head,
    stub_call format_float self prompt
    = "[LLM_STUB] model=" +:+ stub_model self
      +:+ " temp=" +:+ format_float (stub_temperature self)
      +:+ " | prompt_preview=" +:+ head
    ∧ (length (PyStr.chars head) = min 400 (length (PyStr.chars prompt)))
    ∧ (newline ∉ PyStr.chars head)
    ∧ (∀ i c, i < 400 → PyStr.chars prompt !! i = Some c →
              PyStr.chars head !! i
              = Some (if Ascii.eqb c newline then " "%char else c)).
Proof.
  exists (replace_newlines (PyStr.take 400 prompt)).
  split; [reflexivity|].
  rewrite chars_replace_newlines, chars_take.
  split; [|split].
  - now rewrite length_map, length_take.
  - intros Hin. apply list_elem_of_In, in_map_iff in Hin as (c & Hc & _).
    destruct (Ascii.eqb c newline) eqn:E; [discriminate|].
    rewrite Hc in E. discriminate.
  - intros i c Hi Hc. rewrite lookup_map, lookup_take_lt by exact Hi.
    now rewrite Hc.
Qed.

End Words.

(** ** The further properties at work *)

Lemma healthy_reliable (found : list json) : file_reliable (Cases.healthy found).
Proof. intros h. split; reflexivity. Defined.

Lemma cat_dog_rankable :
  Forall (λ d, is_Some (record_text d))
         [Scenario.text_record "the cat sat"; Scenario.text_record "a dog ran"].
Proof. repeat constructor; eexists; reflexivity. Defined.

Lemma search_dispatch_witness :
  search_chroma (Cases.healthy []) "cat" 3 Scenario.chroma_db Scenario.cat_dog
  = (Ret [],
     after_call (OpSimilaritySearch "cat" 3)
                (after_call (OpChroma Scenario.chroma_db None) Scenario.cat_dog)).
Proof.
  apply (search_dispatch (Cases.healthy []) "cat" 3 Scenario.chroma_db
           Scenario.cat_dog
           (Some (mkDb (Build_EmbeddingAdapter
                          (get_embedding_function (Cases.healthy [])))
                       Scenario.chroma_db))
           (after_call (OpChroma Scenario.chroma_db None) Scenario.cat_dog)).
  reflexivity.
Defined.

Lemma search_raises_only_from_fallback_witness :
  ∃ w0,
    fallback_search Cases.search_fails "cat" 3 w0
    = (Raise (Exn JSONDecodeError "Expecting value"),
       after_call OpReadText
         (after_call (OpSimilaritySearch "cat" 3)
            (after_call (OpChroma Scenario.chroma_db None) Scenario.corrupt))).
Proof.
  apply (search_raises_only_from_fallback Cases.search_fails "cat" 3
           Scenario.chroma_db Scenario.corrupt).
  reflexivity.
Defined.

Lemma search_negative_k_witness :
  fallback_search Scenario.offline "cat sat" (-1) Scenario.cat_dog
  = (Ret (take (2 - Z.to_nat (- (-1)))
               (ranking "cat sat" [Scenario.text_record "the cat sat";
                                   Scenario.text_record "a dog ran"])),
     after_call OpReadText Scenario.cat_dog).
Proof.
  apply (search_negative_k Scenario.offline "cat sat" (-1) Scenario.cat_dog
           [Scenario.text_record "the cat sat"; Scenario.text_record "a dog ran"]).
  - exact offline_file_reliable.
  - reflexivity.
  - exact cat_dog_rankable.
  - lia.
Defined.

Lemma search_returns_best_witness :
  ∃ hits rest w',
    fallback_search Scenario.offline "dog" 1 Scenario.cat_dog = (Ret hits, w')
    ∧ hits ++ rest ≡ₚ [Scenario.text_record "the cat sat";
                        Scenario.text_record "a dog ran"]
    ∧ length hits = min (Z.to_nat 1) 2
    ∧ ∀ a b, a ∈ hits → b ∈ rest →
             record_overlap "dog" b ≤ record_overlap "dog" a.
Proof.
  apply (search_returns_best Scenario.offline "dog" 1 Scenario.cat_dog
           [Scenario.text_record "the cat sat"; Scenario.text_record "a dog ran"]).
  - exact offline_file_reliable.
  - reflexivity.
  - exact cat_dog_rankable.
  - lia.
Defined.

Lemma search_blank_query_witness :
  fallback_search Scenario.offline "   " 1 Scenario.cat_dog
  = (Ret (take (Z.to_nat 1) [Scenario.text_record "the cat sat";
                             Scenario.text_record "a dog ran"]),
     after_call OpReadText Scenario.cat_dog).
Proof.
  apply (search_blank_query Scenario.offline "   " 1 Scenario.cat_dog
           [Scenario.text_record "the cat sat"; Scenario.text_record "a dog ran"]).
  - reflexivity.
  - exact offline_file_reliable.
  - reflexivity.
  - exact cat_dog_rankable.
  - lia.
Defined.

Lemma append_then_search_witness :
  ∃ w1 new,
    fallback_append Scenario.offline Scenario.stub ["a cat ran"] None Scenario.cat_dog
    = (Ret tt, w1)
    ∧ fallback_search Scenario.offline "cat ran" 3 w1
      = (Ret (take (Z.to_nat 3)
                   (ranking "cat ran"
                      ([Scenario.text_record "the cat sat";
                        Scenario.text_record "a dog ran"] ++ new))),
         after_call OpReadText w1)
    ∧ length new = 1.
Proof.
  destruct (append_then_search Scenario.offline Scenario.stub ["a cat ran"] None
              Scenario.cat_dog
              [Scenario.text_record "the cat sat"; Scenario.text_record "a dog ran"]
              (_fake_embed ["a cat ran"]) "cat ran" 3)
    as (w1 & new & H1 & H2 & H3 & _).
  - reflexivity.
  - exact cat_dog_rankable.
  - reflexivity.
  - cbn. lia.
  - exact offline_file_reliable.
  - lia.
  - exists w1, new. auto.
Defined.

(** The record just appended, which shares two words with the query, is
    found first. *)
Example append_then_search_top :
  let w1 := snd (add_documents_to_chroma Scenario.offline ["a cat ran"] None
                   Scenario.chroma_db Scenario.cat_dog) in
  match fst (search_chroma Scenario.offline "cat ran" 1 Scenario.chroma_db w1) with
  | Ret [d] => record_text d
  | _ => None
  end = Some "a cat ran".
Proof. vm_compute. reflexivity. Qed.

Lemma run_query_fallback_blind_witness :
  run_query Scenario.offline Cases.echo "cat sat" 3 Scenario.cat_dog
  = (Ret (JObj [("result",
                 match Cases.echo (build_prompt EmptyString "cat sat") with
                 | Ret answer => answer
                 | Raise e => JStr ("[LLM_ERROR] " +:+ exn_msg e)
                 end);
                ("source_documents",
                 JArr (replicate (min (Z.to_nat 3) 2) blank_hit))]),
     after_call OpReadText Scenario.cat_dog).
Proof.
  apply (run_query_fallback_blind Scenario.offline Cases.echo "cat sat" 3
           Scenario.cat_dog
           [Scenario.text_record "the cat sat"; Scenario.text_record "a dog ran"]).
  - reflexivity.
  - exact offline_file_reliable.
  - reflexivity.
  - exact cat_dog_rankable.
  - lia.
Defined.

Lemma run_query_llm_failure_tagged_witness :
  run_query Scenario.offline Cases.down "cat" 3 Scenario.fresh
  = (Ret (JObj [("result", JStr ("[LLM_ERROR] " +:+ "connection reset"));
                ("source_documents", JArr (_normalize_docs []))]),
     Scenario.fresh).
Proof.
  apply (run_query_llm_failure_tagged Scenario.offline Cases.down "cat" 3
           Scenario.fresh Scenario.fresh [] EmptyString
           (Exn OtherError "connection reset")).
  - reflexivity.
  - reflexivity.
  - reflexivity.
Defined.

Lemma run_query_corrupt_file_raises_witness :
  ∃ e,
    run_query Scenario.offline Cases.echo "cat" 3 Scenario.corrupt
    = (Raise e, after_call OpReadText Scenario.corrupt)
    ∧ exn_cls e = JSONDecodeError
    ∧ search_chroma Scenario.offline "cat" 3 CHROMA_DB_DIR Scenario.corrupt
      = (Raise e, after_call OpReadText Scenario.corrupt).
Proof.
  apply (run_query_corrupt_file_raises Scenario.offline Cases.echo "cat" 3
           Scenario.corrupt).
  - reflexivity.
  - exact offline_file_reliable.
  - reflexivity.
Defined.

Lemma run_query_vector_context_witness :
  run_query
    (Cases.healthy [JObj [("page_content", JStr "the cat sat");
                          ("metadata", JObj [("source", JStr "x")])];
                    JObj [("page_content", JStr "a dog ran");
                          ("metadata", JObj [])]])
    Cases.echo "cat" 3 Scenario.fresh
  = (Ret (JObj [("result",
                 JStr (build_prompt
                         ("the cat sat"
                          +:+ String newline (String newline EmptyString)
                          +:+ "a dog ran")
                         "cat"));
                ("source_documents",
                 JArr [JObj [("text", JStr "the cat sat");
                             ("metadata", JObj [("source", JStr "x")])];
                       JObj [("text", JStr "a dog ran");
                             ("metadata", JObj [])]])]),
     after_call (OpSimilaritySearch "cat" 3)
                (after_call (OpChroma CHROMA_DB_DIR None) Scenario.fresh)).
Proof.
  apply (run_query_vector_context
           (Cases.healthy [JObj [("page_content", JStr "the cat sat");
                                 ("metadata", JObj [("source", JStr "x")])];
                           JObj [("page_content", JStr "a dog ran");
                                 ("metadata", JObj [])]])
           Cases.echo "cat" 3 Scenario.fresh
           (mkDb (Build_EmbeddingAdapter
                    (get_embedding_function (Cases.healthy [])))
                 CHROMA_DB_DIR)
           (after_call (OpChroma CHROMA_DB_DIR None) Scenario.fresh)
           [("the cat sat", [("source", JStr "x")]); ("a dog ran", [])]).
  - reflexivity.
  - reflexivity.
  - reflexivity.
  - repeat constructor; discriminate.
Defined.

Lemma chunk_text_windows_witness :
  ∃ chunks,
    chunk_text 7 "a b c d e f g" 3 1 = Some chunks
    ∧ chunks = map (str_join " ")
                   (windows (findall_nonspace "a b c d e f g") (Z.to_nat 3)
                            (Z.to_nat (3 - 1)))
    ∧ length chunks
      = (length (findall_nonspace "a b c d e f g") + Z.to_nat (3 - 1) - 1)
        / Z.to_nat (3 - 1)
    ∧ (findall_nonspace "a b c d e f g" = [] → chunks = []).
Proof.
  apply (chunk_text_windows 7 "a b c d e f g" 3 1).
  - lia.
  - lia.
  - vm_compute. lia.
Defined.

Example chunk_text_example :
  chunk_text 7 "a b c d e f g" 3 1 = Some ["a b c"; "c d e"; "e f g"; "g"].
Proof. reflexivity. Qed.

Lemma chunk_text_never_returns_witness :
  chunk_text 1000 "a" 50 50 = None.
Proof.
  apply (chunk_text_never_returns 1000 "a" 50 50).
  - discriminate.
  - lia.
Defined.

Lemma chunk_text_partition_witness :
  ∃ chunks,
    chunk_text 7 "a b c d e f g" 3 0 = Some chunks
    ∧ concat (map findall_nonspace chunks) = findall_nonspace "a b c d e f g".
Proof.
  apply (chunk_text_partition 7 "a b c d e f g" 3).
  - lia.
  - vm_compute. lia.
Defined.

Lemma chunk_text_covers_witness :
  ∃ chunks chunk,
    chunk_text 7 "a b c d e f g" 3 1 = Some chunks
    ∧ chunks !! (5 / Z.to_nat (3 - 1)) = Some chunk
    ∧ findall_nonspace chunk !! (5 mod Z.to_nat (3 - 1)) = Some "f".
Proof.
  apply (chunk_text_covers 7 "a b c d e f g" 3 1 5 "f").
  - lia.
  - lia.
  - vm_compute. lia.
  - reflexivity.
Defined.

Lemma first_last_n_words_witness :
  findall_nonspace (_first_n_words "a b  c" 0) = take (Z.to_nat 0) (findall_nonspace "a b  c")
  ∧ findall_nonspace (_last_n_words "a b  c" 0)
    = (if (0 =? 0)%Z then findall_nonspace "a b  c"
       else drop (length (findall_nonspace "a b  c") - Z.to_nat 0)
                 (findall_nonspace "a b  c")).
Proof.
  apply (first_last_n_words "a b  c" 0). lia.
Defined.

Example last_n_words_zero : _last_n_words "a b  c" 0 = "a b c"
                            ∧ _first_n_words "a b  c" 0 = EmptyString.
Proof. split; reflexivity. Qed.
